(** * PluralKit command layer: tokenizer, argument cursor, router, dispatcher

    A shallow embedding of [pluralkit/bot/commands/__init__.py] together with
    the two handlers of [misc_commands.py] and [message_commands.py] that
    return a [CommandError] value.

    Python [str] values are modelled as [string]; a character is a code point
    below 256, so [isspace] and [tolower] below are Python's tables restricted
    to that range. *)

From Stdlib Require Import String Ascii List ZArith Lia Bool PrimFloat.
Import ListNotations.

Local Open Scope string_scope.
Local Open Scope Z_scope.

(** ** Python's built-in string operations *)

Module Py.

(** The double quote character, U+0022. *)
Definition dquote : ascii := ascii_of_nat 34.

(** [len(s)] *)
Definition len (s : string) : Z := Z.of_nat (String.length s).

Fixpoint take (n : nat) (s : string) : string :=
  match n, s with
  | S n', String c s' => String c (take n' s')
  | _, _ => EmptyString
  end.

Fixpoint drop (n : nat) (s : string) : string :=
  match n, s with
  | S n', String _ s' => drop n' s'
  | _, _ => s
  end.

(** A slice bound as [PySlice_AdjustIndices] normalises it: a negative bound
    counts from the end, and the result is clamped to [0 .. len]. *)
Definition bound (s : string) (i : Z) : nat :=
  let i' := if i <? 0 then Z.max 0 (i + len s) else i in
  Z.to_nat (Z.min (len s) i').

(** [s[i:]] *)
Definition slice_from (i : Z) (s : string) : string := drop (bound s i) s.

(** [s[:j]] *)
Definition slice_to (j : Z) (s : string) : string := take (bound s j) s.

(** [s[i:j]] *)
Definition slice (i j : Z) (s : string) : string :=
  drop (bound s i) (take (bound s j) s).

Fixpoint find_from (c : ascii) (s : string) (i : Z) : Z :=
  match s with
  | EmptyString => -1
  | String x s' => if Ascii.eqb x c then i else find_from c s' (i + 1)
  end.

(** [s.find(c)] for a one-character needle: the least index, or [-1]. *)
Definition find (c : ascii) (s : string) : Z := find_from c s 0.

(** [s.startswith(p)] *)
Fixpoint startswith (s p : string) {struct p} : bool :=
  match p, s with
  | EmptyString, _ => true
  | String a p', String b s' => Ascii.eqb a b && startswith s' p'
  | String _ _, EmptyString => false
  end.

(** [c.isspace()] on code points below 256: TAB, LF, VT, FF, CR, the four
    separators FS, GS, RS, US, SPACE, NEL and NBSP. *)
Definition isspace (c : ascii) : bool :=
  let n := N_of_ascii c in
  (((9 <=? n) && (n <=? 13)) || ((28 <=? n) && (n <=? 32))
   || (n =? 133) || (n =? 160))%N.

Fixpoint lstrip (s : string) : string :=
  match s with
  | String c s' => if isspace c then lstrip s' else s
  | EmptyString => EmptyString
  end.

Fixpoint rstrip (s : string) : string :=
  match s with
  | EmptyString => EmptyString
  | String c s' =>
      match rstrip s' with
      | EmptyString => if isspace c then EmptyString else String c EmptyString
      | r => String c r
      end
  end.

(** [s.strip()] *)
Definition strip (s : string) : string := rstrip (lstrip s).

(** Truth value of an optional string: [None] and [""] are falsy. *)
Definition truthy (o : option string) : bool :=
  match o with
  | Some (String _ _) => true
  | _ => false
  end.

(** [c.lower()] as [sre] applies it to one code point below 256. *)
Definition tolower (c : ascii) : ascii :=
  let n := N_of_ascii c in
  if ((65 <=? n) && (n <=? 90)
      || (192 <=? n) && (n <=? 222) && negb (n =? 215))%N
  then ascii_of_N (n + 32) else c.

End Py.

(** ** The tokenizer *)

Definition next_arg (arg_string : string) : string * option string :=
  if Py.startswith arg_string (String Py.dquote EmptyString) then
    let end_quote := Py.find Py.dquote (Py.slice_from 1 arg_string) + 1 in
    if end_quote >? 0 then
      (Py.slice 1 end_quote arg_string,
       Some (Py.strip (Py.slice_from (end_quote + 1) arg_string)))
    else
      (Py.slice_from 1 arg_string, None)
  else
    let next_space := Py.find " "%char arg_string in
    if next_space >=? 0 then
      (Py.strip (Py.slice_to next_space arg_string),
       Some (Py.strip (Py.slice_from next_space arg_string)))
    else
      (Py.strip arg_string, None).

(** ** Python's [re] module, for the expressions of the command table

    The table uses literals, groups, alternation and [?]; the prefix adds
    [^].  Anything else is refused by [compile]. *)

Module Re.

Inductive regex : Type :=
| Eps
| Bol
| Chr (c : ascii)
| Cat (r1 r2 : regex)
| Alt (r1 r2 : regex)
| Opt (r : regex).

Definition is_meta (c : ascii) : bool :=
  existsb (Ascii.eqb c)
    ["."; "*"; "+"; "?"; "["; "]"; "{"; "}"; "\"; "$"; "("; ")"; "|"; "^"]%char.

(** Recursive descent over [alt := seq ('|' alt)?], [seq := item*],
    [item := atom '?'?], [atom := '(' alt ')' | '^' | char]. *)
Fixpoint parse_alt (fuel : nat) (s : string) : option (regex * string) :=
  match fuel with
  | O => None
  | S f =>
      match parse_seq f s with
      | Some (r1, String "|" s') =>
          match parse_alt f s' with
          | Some (r2, s'') => Some (Alt r1 r2, s'')
          | None => None
          end
      | other => other
      end
  end
with parse_seq (fuel : nat) (s : string) : option (regex * string) :=
  match fuel with
  | O => None
  | S f =>
      match s with
      | EmptyString | String "|" _ | String ")" _ => Some (Eps, s)
      | _ =>
          match parse_item f s with
          | Some (r1, s') =>
              match parse_seq f s' with
              | Some (r2, s'') => Some (Cat r1 r2, s'')
              | None => None
              end
          | None => None
          end
      end
  end
with parse_item (fuel : nat) (s : string) : option (regex * string) :=
  match fuel with
  | O => None
  | S f =>
      match parse_atom f s with
      | Some (r, String "?" s') => Some (Opt r, s')
      | other => other
      end
  end
with parse_atom (fuel : nat) (s : string) : option (regex * string) :=
  match fuel with
  | O => None
  | S f =>
      match s with
      | String "(" s' =>
          match parse_alt f s' with
          | Some (r, String ")" s'') => Some (r, s'')
          | _ => None
          end
      | String "^" s' => Some (Bol, s')
      | String c s' => if is_meta c then None else Some (Chr c, s')
      | EmptyString => None
      end
  end.

(** [re.compile(pattern)]; [None] stands for [re.error]. *)
Definition compile (pattern : string) : option regex :=
  match parse_alt (4 * String.length pattern + 4) pattern with
  | Some (r, EmptyString) => Some r
  | _ => None
  end.

(** One literal against one character of the subject. *)
Definition chr_eq (ignorecase : bool) (c x : ascii) : bool :=
  if ignorecase then Ascii.eqb (Py.tolower x) (Py.tolower c) else Ascii.eqb x c.

(** The backtracking search: every way [r] matches at position [pos] of the
    subject whose unread part is [s], as (end position, unread part), in the
    order the engine tries them. *)
Fixpoint run (ic : bool) (r : regex) (pos : nat) (s : string)
  : list (nat * string) :=
  match r with
  | Eps => [(pos, s)]
  | Bol => if Nat.eqb pos 0 then [(pos, s)] else []
  | Chr c =>
      match s with
      | String x s' => if chr_eq ic c x then [(S pos, s')] else []
      | EmptyString => []
      end
  | Cat r1 r2 => flat_map (fun m => run ic r2 (fst m) (snd m)) (run ic r1 pos s)
  | Alt r1 r2 => run ic r1 pos s ++ run ic r2 pos s
  | Opt r1 => run ic r1 pos s ++ [(pos, s)]
  end.

(** [regex.match(s)]: the first match anchored at index 0, as
    [match.span()[1]]. *)
Definition rmatch (ic : bool) (r : regex) (s : string) : option Z :=
  match run ic r 0 s with
  | m :: _ => Some (Z.of_nat (fst m))
  | [] => None
  end.

(** The words of an expression read at position [pos]: its language, which
    is finite since the fragment has no repetition. *)
Fixpoint words (r : regex) (pos : nat) : list string :=
  match r with
  | Eps => [EmptyString]
  | Bol => if Nat.eqb pos 0 then [EmptyString] else []
  | Chr c => [String c EmptyString]
  | Cat r1 r2 =>
      flat_map (fun w1 => map (append w1) (words r2 (pos + String.length w1)))
               (words r1 pos)
  | Alt r1 r2 => words r1 pos ++ words r2 pos
  | Opt r1 => words r1 pos ++ [EmptyString]
  end.

End Re.

(** [s] begins with [w], letter case aside. *)
Fixpoint begins_ci (w s : string) {struct w} : bool :=
  match w, s with
  | EmptyString, _ => true
  | String a w', String b s' => Re.chr_eq true a b && begins_ci w' s'
  | String _ _, EmptyString => false
  end.

(** ** Data of the chat gateway and of the command layer *)

(** [discord.User] / [discord.Member], as far as this layer reads it. *)
Record User : Type := mkUser {
  user_id : string;
  user_name : string;
  user_discriminator : string
}.

(** [discord.Message]: [msg_server] is [None] for a direct message. *)
Record Message : Type := mkMessage {
  msg_content : string;
  msg_author : User;
  msg_server : option string;
  msg_channel : string
}.

(** Where [client.send_message] is asked to deliver: a channel object held by
    a message, or the result of [client.get_channel(id)]. *)
Inductive Destination : Type :=
| ChannelOf (channel_id : string)
| GetChannel (channel_id : string).

(** [pluralkit.system.System] and [pluralkit.member.Member] rows. *)
Record System : Type := mkSystem { system_id : Z; system_hid : string }.
Record Member : Type := mkMember { member_id : Z; member_hid : string }.

(** How an embed object came to be: [discord.Embed()] or one of the
    builders of [pluralkit.bot.embeds]. *)
Inductive EmbedBase : Type :=
| discord_Embed
| embeds_status (text : string)
| embeds_success (text : string)
| embeds_error (text : string) (help : option (string * string)).

(** An embed: its origin and the attributes this layer assigns afterwards. *)
Record Embed : Type := mkEmbed {
  embed_base : EmbedBase;
  embed_colour : option string;
  embed_title : option string;
  embed_description : option string;
  embed_footer : option string;
  embed_fields : list (string * string)
}.

Definition embed_of (b : EmbedBase) : Embed := mkEmbed b None None None None [].

(** The object [client.send_message] returns. *)
Record SentMessage : Type := mkSent {
  sent_to : Destination;
  sent_content : option string;
  sent_embed : option Embed
}.

(** The [(reaction, user)] pair [client.wait_for_reaction] returns. *)
Record WaitedReaction : Type := mkWaited {
  reaction_emoji : string;
  reaction_user : User
}.

(** Exceptions.  [CommandError], [KeyError] and [OtherException] are
    instances of [Exception]; [BaseExceptionOnly] stands for those that
    derive from [BaseException] alone: [KeyboardInterrupt], [SystemExit],
    [GeneratorExit]. *)
Inductive Exn : Type :=
| CommandError (text : string) (help : option (string * string))
| KeyError (key : string)
| OtherException (description : string)
| BaseExceptionOnly (description : string).

(** [isinstance(e, Exception)] *)
Definition is_Exception (e : Exn) : bool :=
  match e with
  | BaseExceptionOnly _ => false
  | _ => true
  end.

(** What a handler coroutine returns. *)
Inductive Value : Type :=
| VNone
| VCommandSuccess (text : string)
| VCommandError (text : string) (help : option (string * string))
| VObject (description : string).

(** The functions the table routes to. *)
Inductive Handler : Type :=
| system_commands_new_system
| system_commands_system_set
| system_commands_system_link
| system_commands_system_unlink
| system_commands_system_fronter
| system_commands_system_fronthistory
| system_commands_system_delete
| system_commands_system_frontpercent
| system_commands_system_info
| import_commands_import_tupperware
| member_commands_new_member
| member_commands_member_set
| member_commands_member_proxy
| member_commands_member_delete
| member_commands_member_info
| message_commands_message_info
| mod_commands_set_log
| misc_commands_invite_link
| misc_commands_export
| misc_commands_show_help
| switch_commands_switch_move
| switch_commands_switch_out
| switch_commands_switch_member.

(** What a dispatch does that can be observed from outside. *)
Inductive Event : Type :=
| EvCall (func : Handler) (args : option string)
| EvSendMessage (dest : Destination) (content : option string) (embed : option Embed)
| EvAddReaction (target : SentMessage) (emoji : string)
| EvWaitForReaction (emoji : list string) (user : User) (timeout : float)
| EvWaitForMessage (channel : string) (author : User) (timeout : float)
| EvGetSystemByAccount (account_id : string)
| EvGetSystemFuzzy (name : option string)
| EvGetMemberFuzzy (system : option Z) (name : option string) (system_only : bool)
| EvLoggerException (msg : string).

(** [CommandContext]: the message and the cursor; [client] and [conn] are
    handles on the collaborators, which the [World] below stands for. *)
Record CommandContext : Type := mkContext {
  message : Message;
  args : option string
}.

Inductive Outcome (A : Type) : Type :=
| Return (a : A)
| Raise (e : Exn).
Arguments Return {A} a.
Arguments Raise {A} e.

(** A coroutine over a context: its outcome, the context it leaves and the
    events it caused, oldest first. *)
Definition Cmd (A : Type) : Type :=
  CommandContext -> Outcome A * CommandContext * list Event.

Definition ret {A} (a : A) : Cmd A := fun ctx => (Return a, ctx, []).

Definition raise {A} (e : Exn) : Cmd A := fun ctx => (Raise e, ctx, []).

Definition bind {A B} (c : Cmd A) (k : A -> Cmd B) : Cmd B :=
  fun ctx =>
    match c ctx with
    | (Return a, ctx1, ev1) =>
        match k a ctx1 with
        | (o, ctx2, ev2) => (o, ctx2, (ev1 ++ ev2)%list)
        end
    | (Raise e, ctx1, ev1) => (Raise e, ctx1, ev1)
    end.

(** [try: body except ...: ...]; [handler] stands for the except clauses
    taken together and raises again what none of them catches. *)
Definition try_except {A} (body : Cmd A) (handler : Exn -> Cmd A) : Cmd A :=
  fun ctx =>
    match body ctx with
    | (Return a, ctx1, ev1) => (Return a, ctx1, ev1)
    | (Raise e, ctx1, ev1) =>
        match handler e ctx1 with
        | (o, ctx2, ev2) => (o, ctx2, (ev1 ++ ev2)%list)
        end
    end.

Definition emit (e : Event) : Cmd unit := fun ctx => (Return tt, ctx, [e]).

Definition get_ctx : Cmd CommandContext := fun ctx => (Return ctx, ctx, []).

Definition set_args (a : option string) : Cmd unit :=
  fun ctx => (Return tt, mkContext (message ctx) a, []).

Declare Scope cmd_scope.
Delimit Scope cmd_scope with cmd.
Notation "x <- c ;; k" := (bind c (fun x => k))
  (at level 61, c at next level, right associativity) : cmd_scope.
Notation "c ;; k" := (bind c (fun _ => k))
  (at level 61, right associativity) : cmd_scope.
Local Open Scope cmd_scope.

(** The collaborators outside this layer: the database, the fuzzy resolvers,
    the gateway's waits, the process environment, the traceback formatter,
    the help texts, [int], and the handlers of the other command modules.
    Calls to them are taken to return. *)
Record World : Type := mkWorld {
  get_system_by_account : string -> option System;
  get_system_fuzzy : option string -> option System;
  get_member_fuzzy : option Z -> option string -> bool -> option Member;
  wait_for_reaction : list string -> User -> float -> option WaitedReaction;
  wait_for_message : string -> User -> float -> option Message;
  environ : string -> option string;
  format_exc : Exn -> string;
  help_pages : option string -> option (list (option string * string));
  help_message_lookup : string * string;
  py_int : string -> option Z;
  message_info_lookup : Z -> Cmd Value;
  external_handler : Handler -> Cmd Value
}.

(** ** [commands/__init__.py] *)

(** [str.format] of a value that may be [None]. *)
Definition format_arg (o : option string) : string :=
  match o with
  | Some s => s
  | None => "None"
  end.

Definition newline : string := String (ascii_of_nat 10) EmptyString.

(** U+2705 and U+274C lie outside the modelled range and stand as their
    UTF-8 bytes; they only enter concatenations and equality tests. *)
Definition check_mark : string := "✅".
Definition cross_mark : string := "❌".

(** [isinstance(result, CommandResponse)] *)
Definition is_CommandResponse (v : Value) : bool :=
  match v with
  | VCommandSuccess _ | VCommandError _ _ => true
  | VNone | VObject _ => false
  end.

(** [result.to_embed()] *)
Definition to_embed (v : Value) : option Embed :=
  match v with
  | VCommandSuccess text =>
      Some (embed_of (embeds_success (check_mark ++ " " ++ text)))
  | VCommandError text help =>
      Some (embed_of (embeds_error (cross_mark ++ " " ++ text) help))
  | VNone | VObject _ => None
  end.

(** The timeout both confirmation waits pass: [60.0*5]. *)
Definition confirm_timeout : float := (60 * 5)%float.

Section Commands.

Variable W : World.

Definition get_system : Cmd (option System) :=
  ctx <- get_ctx ;;
  let account := user_id (msg_author (message ctx)) in
  emit (EvGetSystemByAccount account) ;;
  ret (get_system_by_account W account).

Definition ensure_system : Cmd System :=
  system <- get_system ;;
  match system with
  | None =>
      raise (CommandError
        "No system registered to this account. Use `pk;system new` to register one."
        None)
  | Some s => ret s
  end.

Definition has_next : Cmd bool :=
  ctx <- get_ctx ;;
  ret (Py.truthy (args ctx)).

Definition pop_str (error : option Exn) : Cmd (option string) :=
  ctx <- get_ctx ;;
  match args ctx with
  | Some (String c s) =>
      let (popped, rest) := next_arg (String c s) in
      set_args rest ;;
      ret (Some popped)
  | _ =>
      match error with
      | Some e => raise e
      | None => ret None
      end
  end.

Definition pop_system (error : option Exn) : Cmd System :=
  name <- pop_str error ;;
  emit (EvGetSystemFuzzy name) ;;
  match get_system_fuzzy W name with
  | None =>
      raise (CommandError ("Unable to find system '" ++ format_arg name ++ "'.") None)
  | Some system => ret system
  end.

Definition pop_member (error : option Exn) (system_only : bool) : Cmd Member :=
  name <- pop_str error ;;
  system <- (if system_only
             then s <- ensure_system ;; ret (Some s)
             else get_system) ;;
  let sid := option_map system_id system in
  emit (EvGetMemberFuzzy sid name system_only) ;;
  match get_member_fuzzy W sid name system_only with
  | None =>
      raise (CommandError
        ("Unable to find member '" ++ format_arg name ++ "'"
         ++ (if system_only then " in your system" else "") ++ ".") None)
  | Some member => ret member
  end.

Definition remaining : Cmd (option string) :=
  ctx <- get_ctx ;;
  ret (args ctx).

Definition reply (content : option string) (embed : option Embed)
  : Cmd SentMessage :=
  ctx <- get_ctx ;;
  let dest := ChannelOf (msg_channel (message ctx)) in
  emit (EvSendMessage dest content embed) ;;
  ret (mkSent dest content embed).

Definition confirm_react (user : User) (text : string) : Cmd bool :=
  sent <- reply (Some text) None ;;
  emit (EvAddReaction sent check_mark) ;;
  emit (EvAddReaction sent cross_mark) ;;
  emit (EvWaitForReaction [check_mark; cross_mark] user confirm_timeout) ;;
  match wait_for_reaction W [check_mark; cross_mark] user confirm_timeout with
  | None => raise (CommandError "Timed out - try again." None)
  | Some reaction => ret (String.eqb (reaction_emoji reaction) check_mark)
  end.

Definition confirm_text (user : User) (channel : string)
  (confirm : string) (text : string) : Cmd bool :=
  reply (Some text) None ;;
  emit (EvWaitForMessage channel user confirm_timeout) ;;
  match wait_for_message W channel user confirm_timeout with
  | None => raise (CommandError "Timed out - try again." None)
  | Some m => ret (String.eqb (msg_content m) confirm)
  end.

(** [exc] is the exception being handled, which [traceback.format_exc]
    reads from the interpreter. *)
Definition log_error_in_channel (exc : Exn) : Cmd unit :=
  match environ W "LOG_CHANNEL" with
  | None => raise (KeyError "LOG_CHANNEL")
  | Some channel_id =>
      if negb (Py.truthy (Some channel_id)) then ret tt
      else
        ctx <- get_ctx ;;
        let m := message ctx in
        let footer :=
          "Sender: " ++ user_name (msg_author m) ++ "#"
          ++ user_discriminator (msg_author m)
          ++ " | Server: "
          ++ match msg_server m with Some id => id | None => "(DMs)" end
          ++ " | Channel: " ++ msg_channel m in
        let embed :=
          mkEmbed discord_Embed (Some "dark_red") (Some (msg_content m)) None
                  (Some footer) [] in
        emit (EvSendMessage (GetChannel channel_id)
                (Some ("```python" ++ newline ++ format_exc W exc ++ "```"))
                (Some embed))
  end.

(** ** [message_commands.py] and [misc_commands.py] *)

Definition message_info : Cmd Value :=
  mid_str <- pop_str (Some (CommandError "You must pass a message ID."
                                         (Some (help_message_lookup W)))) ;;
  match mid_str with
  | None => raise (OtherException "TypeError")
  | Some s =>
      match py_int W s with
      | None =>
          ret (VCommandError "You must pass a valid number as a message ID."
                             (Some (help_message_lookup W)))
      | Some mid => message_info_lookup W mid
      end
  end.

Definition add_page_entry (embed : Embed) (entry : option string * string)
  : Embed :=
  let (name, text) := entry in
  if Py.truthy name
  then mkEmbed (embed_base embed) (embed_colour embed) (embed_title embed)
               (embed_description embed) (embed_footer embed)
               (embed_fields embed ++ [(format_arg name, text)])%list
  else mkEmbed (embed_base embed) (embed_colour embed) (embed_title embed)
               (Some text) (embed_footer embed) (embed_fields embed).

Definition show_help : Cmd Value :=
  let embed :=
    mkEmbed (embeds_status "") None (Some "PluralKit Help") None
      (Some "By Astrid (Ske#6201; pk;member qoxvy) | GitHub: https://github.com/xSke/PluralKit/")
      [] in
  more <- has_next ;;
  category <- (if more then pop_str None else ret None) ;;
  match help_pages W category with
  | Some page =>
      reply None (Some (fold_left add_page_entry page embed)) ;;
      ret VNone
  | None =>
      ret (VCommandError ("Unknown help page '" ++ format_arg category ++ "'.") None)
  end.

(** The coroutine behind each table entry.  The handlers of the other
    command modules, and [invite_link] and [export], which only talk to
    collaborators, come from the [World]. *)
Definition handler_body (func : Handler) : Cmd Value :=
  match func with
  | message_commands_message_info => message_info
  | misc_commands_show_help => show_help
  | _ => external_handler W func
  end.

(** [await func(ctx)] *)
Definition call (func : Handler) : Cmd Value :=
  ctx <- get_ctx ;;
  emit (EvCall func (args ctx)) ;;
  handler_body func.

Definition run_command (func : Handler) : Cmd unit :=
  try_except
    (result <- call func ;;
     if is_CommandResponse result
     then reply None (to_embed result) ;; ret tt
     else ret tt)
    (fun e =>
       match e with
       | CommandError text help =>
           reply None (to_embed (VCommandError text help)) ;; ret tt
       | KeyError _ | OtherException _ =>
           emit (EvLoggerException "Exception while dispatching command") ;;
           log_error_in_channel e
       | BaseExceptionOnly _ => raise e
       end).

Definition prefix : string := "^pk(;|!)".

Definition commands : list (string * Handler) :=
  [ ("system (new|register|create|init)", system_commands_new_system);
    ("system set", system_commands_system_set);
    ("system link", system_commands_system_link);
    ("system unlink", system_commands_system_unlink);
    ("system fronter", system_commands_system_fronter);
    ("system fronthistory", system_commands_system_fronthistory);
    ("system (delete|remove|destroy|erase)", system_commands_system_delete);
    ("system frontpercent(age)?", system_commands_system_frontpercent);
    ("system", system_commands_system_info);

    ("import tupperware", import_commands_import_tupperware);

    ("member (new|create|add|register)", member_commands_new_member);
    ("member set", member_commands_member_set);
    ("member proxy", member_commands_member_proxy);
    ("member (delete|remove|destroy|erase)", member_commands_member_delete);
    ("member", member_commands_member_info);

    ("message", message_commands_message_info);

    ("mod log", mod_commands_set_log);

    ("invite", misc_commands_invite_link);
    ("export", misc_commands_export);

    ("help", misc_commands_show_help);

    ("switch move", switch_commands_switch_move);
    ("switch out", switch_commands_switch_out);
    ("switch", switch_commands_switch_member) ].

(** The [for pattern, func in commands] loop over the part of the table not
    yet tried.  The result is the returned flag, or the exception that left
    the coroutine, with the events of the dispatch. *)
Fixpoint dispatch_loop (cmds : list (string * Handler)) (msg : Message)
  : Outcome bool * list Event :=
  match cmds with
  | [] => (Return false, [])
  | (pattern, func) :: rest =>
      match Re.compile (prefix ++ pattern) with
      | None => (Raise (OtherException "re.error"), [])
      | Some regex =>
          let cmd := msg_content msg in
          match Re.rmatch true regex cmd with
          | Some span_end =>
              let remaining_string := Py.strip (Py.slice_from span_end cmd) in
              let ctx := mkContext msg (Some remaining_string) in
              match run_command func ctx with
              | (Return _, _, evs) => (Return true, evs)
              | (Raise e, _, evs) => (Raise e, evs)
              end
          | None => dispatch_loop rest msg
          end
      end
  end.

Definition command_dispatch (msg : Message) : Outcome bool * list Event :=
  dispatch_loop commands msg.

End Commands.

(** ** Reference definitions the properties are stated against *)

(** [s] cut at the first [c]: the text before it and the text from it on. *)
Fixpoint cut (c : ascii) (s : string) : option (string * string) :=
  match s with
  | EmptyString => None
  | String x s' =>
      if Ascii.eqb x c then Some (EmptyString, s)
      else match cut c s' with
           | Some (before, rest) => Some (String x before, rest)
           | None => None
           end
  end.

(** The tokenizer contract, read off the text.  With [trim_token] unset the
    unquoted token is the text up to the first space as it stands; with it
    set that text is trimmed. *)
Definition next_arg_contract (trim_token : bool) (s : string)
  : string * option string :=
  match s with
  | String q body =>
      if Ascii.eqb q Py.dquote then
        match cut Py.dquote body with
        | Some (inside, String _ after) => (inside, Some (Py.strip after))
        | _ => (body, None)
        end
      else
        match cut " "%char s with
        | Some (before, rest) =>
            (if trim_token then Py.strip before else before,
             Some (Py.strip rest))
        | None => (Py.strip s, None)
        end
  | EmptyString => (EmptyString, None)
  end.

(** The contract as the specification words it. *)
Definition next_arg_spec : string -> string * option string :=
  next_arg_contract false.

(** [needle in s] *)
Fixpoint contains (needle s : string) : bool :=
  Py.startswith s needle
  || match s with
     | String _ s' => contains needle s'
     | EmptyString => false
     end.

(** The text of a cursor; an absent remainder has none. *)
Definition cursor_text (a : option string) : string :=
  match a with
  | Some s => s
  | None => EmptyString
  end.

Definition no_leading_space (s : string) : bool :=
  match s with
  | String c _ => negb (Py.isspace c)
  | EmptyString => true
  end.

(** The cursor a coroutine leaves behind. *)
Definition cursor_after {A} (c : Cmd A) (ctx : CommandContext) : option string :=
  args (snd (fst (c ctx))).

Definition outcome_of {A} (c : Cmd A) (ctx : CommandContext) : Outcome A :=
  fst (fst (c ctx)).

Definition events_of {A} (c : Cmd A) (ctx : CommandContext) : list Event :=
  snd (c ctx).

Definition is_fetch (e : Event) : bool :=
  match e with
  | EvGetSystemByAccount _ => true
  | _ => false
  end.

(** How many times the database was asked for the invoker's system. *)
Definition fetches (evs : list Event) : nat := List.length (filter is_fetch evs).

(** The two entry points to the invoker's system. *)
Inductive IdentityCall : Type := CallGetSystem | CallEnsureSystem.

(** A handler body that makes the given calls one after the other. *)
Fixpoint identity_calls (W : World) (calls : list IdentityCall) : Cmd unit :=
  match calls with
  | [] => ret tt
  | CallGetSystem :: rest => get_system W ;; identity_calls W rest
  | CallEnsureSystem :: rest => ensure_system W ;; identity_calls W rest
  end.

(** Messages the dispatcher sent to a channel found by id. *)
Definition is_channel_log (e : Event) : bool :=
  match e with
  | EvSendMessage (GetChannel _) _ _ => true
  | _ => false
  end.

(** Messages sent back to the channel the command came from. *)
Definition is_reply (e : Event) : bool :=
  match e with
  | EvSendMessage (ChannelOf _) _ _ => true
  | _ => false
  end.

(** The expression the dispatcher tries for a table entry, applied to a
    message text: [re.compile(prefix + pattern, re.IGNORECASE).match(cmd)]. *)
Definition pattern_match (pattern cmd : string) : option Z :=
  match Re.compile (prefix ++ pattern) with
  | Some regex => Re.rmatch true regex cmd
  | None => None
  end.

(** The texts a table entry stands for: the literal [pk], then [;] or [!],
    then a word of the pattern. *)
Definition command_words (pattern : string) : list string :=
  match Re.compile pattern with
  | Some r =>
      flat_map (fun p => map (append p) (Re.words r 0)) ["pk;"; "pk!"]
  | None => []
  end.

(** What [command_dispatch] makes of a finished [run_command]. *)
Definition dispatched (r : Outcome unit * CommandContext * list Event)
  : Outcome bool * list Event :=
  match r with
  | (Return _, _, evs) => (Return true, evs)
  | (Raise e, _, evs) => (Raise e, evs)
  end.

(** [self.message.author.id] *)
Definition invoker (ctx : CommandContext) : string :=
  user_id (msg_author (message ctx)).

(** The waits on the gateway. *)
Definition is_wait (e : Event) : bool :=
  match e with
  | EvWaitForReaction _ _ _ | EvWaitForMessage _ _ _ => true
  | _ => false
  end.

(** The embed [log_error_in_channel] builds for a context. *)
Definition log_embed (ctx : CommandContext) : Embed :=
  let m := message ctx in
  mkEmbed discord_Embed (Some "dark_red") (Some (msg_content m)) None
    (Some ("Sender: " ++ user_name (msg_author m) ++ "#"
           ++ user_discriminator (msg_author m)
           ++ " | Server: "
           ++ match msg_server m with Some id => id | None => "(DMs)" end
           ++ " | Channel: " ++ msg_channel m))
    [].

(** The code block [log_error_in_channel] wraps a traceback in. *)
Definition traceback_block (text : string) : string :=
  "```python" ++ newline ++ text ++ "```".

(** The reply that renders an error to the channel the command came from. *)
Definition error_reply (ctx : CommandContext) (text : string)
  (help : option (string * string)) : Event :=
  EvSendMessage (ChannelOf (msg_channel (message ctx))) None
    (Some (embed_of (embeds_error (cross_mark ++ " " ++ text) help))).

(** [isinstance(e, CommandError)] *)
Definition is_CommandError (e : Exn) : bool :=
  match e with
  | CommandError _ _ => true
  | _ => false
  end.

(** The category [show_help] looks up: the next token when there is one. *)
Definition help_category : Cmd (option string) :=
  more <- has_next ;;
  if more then pop_str None else ret None.

(** Each table entry compiles, and the compiled expression reads exactly
    the texts [command_words] lists. *)
Definition entry_compiles (entry : string * Handler) : bool :=
  match Re.compile (prefix ++ fst entry) with
  | Some r =>
      if list_eq_dec string_dec (Re.words r 0) (command_words (fst entry))
      then true else false
  | None => false
  end.

(** The cursor seed of a match ending at [span_end]. *)
Definition cursor_seed (msg : Message) (span_end : Z) : CommandContext :=
  mkContext msg (Some (Py.strip (Py.slice_from span_end (msg_content msg)))).

(** [re.compile] accepts the entry's expression. *)
Definition compiles (entry : string * Handler) : Prop :=
  exists r, Re.compile (prefix ++ fst entry) = Some r.

(** No entry of a list matches the text. *)
Definition none_match (cmd : string) (entries : list (string * Handler)) : bool :=
  forallb (fun entry => match pattern_match (fst entry) cmd with
                        | None => true
                        | Some _ => false
                        end) entries.

(** No word of any entry begins the text. *)
Definition no_command_begins (cmd : string) : bool :=
  forallb (fun entry =>
             forallb (fun w => negb (begins_ci w cmd)) (command_words (fst entry)))
          commands.

(** ** Further reference definitions *)

(** A text [strip] leaves as it is. *)
Definition trimmed (s : string) : Prop := Py.strip s = s.

(** A non-empty text with no whitespace at either end. *)
Definition solid (s : string) : Prop :=
  s <> EmptyString /\ no_leading_space s = true /\ Py.rstrip s = s.

(** [n] calls of [pop_str()] in a row, with the values they return. *)
Fixpoint pop_n (n : nat) : Cmd (list (option string)) :=
  match n with
  | O => ret []
  | S n' =>
      t <- pop_str None ;;
      ts <- pop_n n' ;;
      ret (t :: ts)
  end.

(** A word an unquoted argument can carry whole: not empty, free of
    whitespace, and not opening with a double quote. *)
Definition plain_word (w : string) : bool :=
  match w with
  | EmptyString => false
  | String c _ =>
      negb (Ascii.eqb c Py.dquote)
      && forallb (fun x => negb (Py.isspace x)) (list_ascii_of_string w)
  end.

(** [" ".join(ws)] *)
Fixpoint join_words (ws : list string) : string :=
  match ws with
  | [] => EmptyString
  | [w] => w
  | w :: rest => w ++ " " ++ join_words rest
  end.

(** Two texts of the same length that agree letter case aside. *)
Fixpoint same_ci (a b : string) : bool :=
  match a, b with
  | EmptyString, EmptyString => true
  | String x a', String y b' =>
      Ascii.eqb (Py.tolower x) (Py.tolower y) && same_ci a' b'
  | _, _ => false
  end.

(** The first entry of a table whose expression matches the text, with the
    end of the match. *)
Fixpoint route_in (entries : list (string * Handler)) (cmd : string)
  : option (Handler * Z) :=
  match entries with
  | [] => None
  | (pattern, func) :: rest =>
      match pattern_match pattern cmd with
      | Some span_end => Some (func, span_end)
      | None => route_in rest cmd
      end
  end.

Definition route (cmd : string) : option (Handler * Z) := route_in commands cmd.

(** The fields a help page puts on the embed: its named entries, in order. *)
Definition page_fields (page : list (option string * string))
  : list (string * string) :=
  map (fun entry => (format_arg (fst entry), snd entry))
      (filter (fun entry => Py.truthy (fst entry)) page).

(** The description a help page leaves on the embed: the text of its last
    unnamed entry, if it has one. *)
Fixpoint page_description (page : list (option string * string))
  (current : option string) : option string :=
  match page with
  | [] => current
  | (name, text) :: rest =>
      page_description rest (if Py.truthy name then current else Some text)
  end.

(** The reply that renders a success to the channel the command came from. *)
Definition success_reply (ctx : CommandContext) (text : string) : Event :=
  EvSendMessage (ChannelOf (msg_channel (message ctx))) None
    (Some (embed_of (embeds_success (check_mark ++ " " ++ text)))).

(** The context a coroutine leaves behind. *)
Definition context_after {A} (c : Cmd A) (ctx : CommandContext) : CommandContext :=
  snd (fst (c ctx)).

(** Matches that end at the same position and leave texts that agree
    letter case aside. *)
Definition match_same_ci (m m' : nat * string) : Prop :=
  fst m = fst m' /\ same_ci (snd m) (snd m') = true.

(** Equality of table targets is decidable. *)
Definition Handler_eq_dec (a b : Handler) : {a = b} + {a <> b}.
Proof. decide equality. Defined.

(** The word is routed to the entry it belongs to, the match covering it
    whole. *)
Definition routed_to (func : Handler) (w : string) : bool :=
  match route w with
  | Some (f, span_end) =>
      (if Handler_eq_dec f func then true else false)
      && (span_end =? Py.len w)
  | None => false
  end.

(** Every word of the entry is routed to the entry's own handler. *)
Definition entry_reachable (entry : string * Handler) : bool :=
  forallb (routed_to (snd entry)) (command_words (fst entry)).

(** The embed [show_help] sends for a page. *)
Definition help_embed (page : list (option string * string)) : Embed :=
  mkEmbed (embeds_status EmptyString) None (Some "PluralKit Help")
    (page_description page None)
    (Some "By Astrid (Ske#6201; pk;member qoxvy) | GitHub: https://github.com/xSke/PluralKit/")
    (page_fields page).



(** ** A concrete world, for running the definitions *)

Definition is_digit (c : ascii) : bool :=
  let n := N_of_ascii c in ((48 <=? n) && (n <=? 57))%N.

Fixpoint digits_value (acc : Z) (s : string) : option Z :=
  match s with
  | EmptyString => Some acc
  | String c s' =>
      if is_digit c
      then digits_value (10 * acc + Z.of_N (N_of_ascii c) - 48) s'
      else None
  end.

(** [int] on plain runs of decimal digits. *)
Definition digits_int (s : string) : option Z :=
  match s with
  | EmptyString => None
  | _ => digits_value 0 s
  end.

Definition alice : User := mkUser "1001" "alice" "0042".

Definition sample_system : System := mkSystem 7 "abcde".

Definition sample_message (content : string) : Message :=
  mkMessage content alice (Some "5005") "9009".

(** A world with one registered system, a log channel, a single help page
    and collaborators that otherwise find nothing. *)
Definition sample_world (log_channel : option string) : World :=
  mkWorld
    (fun account => if String.eqb account "1001" then Some sample_system else None)
    (fun _ => None)
    (fun _ _ _ => None)
    (fun _ _ _ => None)
    (fun _ _ _ => None)
    (fun key => if String.eqb key "LOG_CHANNEL" then log_channel else None)
    (fun _ => "Traceback (most recent call last)")
    (fun category =>
       match category with
       | None => Some [(None, "PluralKit is a bot.")]
       | Some _ => None
       end)
    ("Looking up a message", "pk;message <id>")
    digits_int
    (fun _ => ret VNone)
    (fun _ => raise (OtherException "RuntimeError")).

(** [sample_world] with handlers that are interrupted from the keyboard. *)
Definition interrupted_world (log_channel : option string) : World :=
  let W := sample_world log_channel in
  mkWorld (get_system_by_account W) (get_system_fuzzy W) (get_member_fuzzy W)
    (wait_for_reaction W) (wait_for_message W) (environ W) (format_exc W)
    (help_pages W) (help_message_lookup W) (py_int W) (message_info_lookup W)
    (fun _ => raise (BaseExceptionOnly "KeyboardInterrupt")).

(** * Properties *)

(** ** Worked cases *)

Example next_arg_quoted :
  next_arg (String Py.dquote "a b" ++ String Py.dquote " c") = ("a b", Some "c").
Proof. reflexivity. Qed.

Example next_arg_plain : next_arg "a b c" = ("a", Some "b c").
Proof. reflexivity. Qed.

Example next_arg_unterminated :
  next_arg (String Py.dquote "unterminated") = ("unterminated", None).
Proof. reflexivity. Qed.

Example next_arg_empty : next_arg EmptyString = (EmptyString, None).
Proof. reflexivity. Qed.

Example pop_three_tokens :
  (a <- pop_str None ;; b <- pop_str None ;; c <- pop_str None ;;
   more <- has_next ;; ret (a, b, c, more))
    (mkContext (sample_message "pk;member")
       (Some (String Py.dquote "Alice B" ++ String Py.dquote " bar baz")))
  = (Return (Some "Alice B", Some "bar", Some "baz", false),
     mkContext (sample_message "pk;member") None, []).
Proof. reflexivity. Qed.

Example prefix_compiles :
  Re.compile "^pk(;|!)system frontpercent(age)?" <> None.
Proof. vm_compute. discriminate. Qed.

Example frontpercentage_is_greedy :
  pattern_match "system frontpercent(age)?" "PK!System FrontPercentage 30d"
  = Some 25.
Proof. vm_compute. reflexivity. Qed.

Example reversed_table_misroutes :
  pattern_match "system" "pk;system set foo" = Some 9
  /\ pattern_match "system set" "pk;system set foo" = Some 13.
Proof. split; vm_compute; reflexivity. Qed.


(** ** Strings *)

Lemma take_app (a b : string) : Py.take (String.length a) (a ++ b) = a.
Proof. induction a as [|c a IH]; simpl; [now destruct b | now rewrite IH]. Qed.

Lemma drop_app (a b : string) : Py.drop (String.length a) (a ++ b) = b.
Proof. induction a as [|c a IH]; simpl; [now destruct b | exact IH]. Qed.

Lemma length_app (a b : string) :
  String.length (a ++ b) = (String.length a + String.length b)%nat.
Proof. induction a as [|c a IH]; simpl; [reflexivity | now rewrite IH]. Qed.

Lemma bound_in_range (s : string) (i : Z) :
  0 <= i <= Py.len s -> Py.bound s i = Z.to_nat i.
Proof.
  intros [Hlo Hhi]. unfold Py.bound.
  destruct (Z.ltb_spec i 0) as [Hneg|_]; [lia|].
  now rewrite Z.min_r by lia.
Qed.

Lemma cut_some (c : ascii) (s before rest : string) :
  cut c s = Some (before, rest) ->
  s = before ++ rest /\ exists rest', rest = String c rest'.
Proof.
  revert before rest. induction s as [|x s IH]; simpl; intros before rest H.
  - discriminate.
  - destruct (Ascii.eqb_spec x c) as [->|Hne].
    + inversion H; subst. split; [reflexivity | now exists s].
    + destruct (cut c s) as [[b r]|] eqn:E; [|discriminate].
      inversion H; subst. destruct (IH b rest eq_refl) as [-> Hr].
      split; [reflexivity | exact Hr].
Qed.

Lemma find_from_cut (c : ascii) (s : string) (i : Z) :
  Py.find_from c s i =
    match cut c s with
    | Some (before, _) => i + Py.len before
    | None => -1
    end.
Proof.
  revert i. induction s as [|x s IH]; simpl; intros i.
  - reflexivity.
  - destruct (Ascii.eqb x c).
    + unfold Py.len. simpl. lia.
    + rewrite IH. destruct (cut c s) as [[b r]|]; [|reflexivity].
      unfold Py.len. simpl String.length. lia.
Qed.

Lemma slice_from_app (a b : string) :
  Py.slice_from (Py.len a) (a ++ b) = b.
Proof.
  unfold Py.slice_from. rewrite bound_in_range.
  - unfold Py.len. rewrite Nat2Z.id. apply drop_app.
  - unfold Py.len. rewrite length_app. lia.
Qed.

Lemma slice_to_app (a b : string) :
  Py.slice_to (Py.len a) (a ++ b) = a.
Proof.
  unfold Py.slice_to. rewrite bound_in_range.
  - unfold Py.len. rewrite Nat2Z.id. apply take_app.
  - unfold Py.len. rewrite length_app. lia.
Qed.

(** ** The tokenizer *)

Lemma next_arg_quoted_eq (body : string) :
  next_arg (String Py.dquote body) = next_arg_contract true (String Py.dquote body).
Proof.
  unfold next_arg, next_arg_contract.
  change (Py.startswith (String Py.dquote body) (String Py.dquote EmptyString))
    with true.
  change (Ascii.eqb Py.dquote Py.dquote) with true. cbv iota.
  assert (Hbody : Py.slice_from 1 (String Py.dquote body) = body).
  { change (String Py.dquote body) with (String Py.dquote EmptyString ++ body).
    apply (slice_from_app (String Py.dquote EmptyString) body). }
  rewrite Hbody. unfold Py.find. rewrite find_from_cut.
  destruct (cut Py.dquote body) as [[inside rest]|] eqn:E.
  - destruct (cut_some _ _ _ _ E) as [-> [after ->]].
    assert (Hpos : (0 + Py.len inside + 1 >? 0) = true).
    { apply Z.gtb_lt. unfold Py.len. lia. }
    rewrite Hpos. f_equal.
    + unfold Py.slice.
      rewrite !bound_in_range.
      * replace (Z.to_nat (0 + Py.len inside + 1)) with (S (String.length inside))
          by (unfold Py.len; lia).
        change (Z.to_nat 1) with 1%nat. simpl Py.take. simpl Py.drop.
        apply take_app.
      * unfold Py.len. simpl String.length. rewrite length_app.
        simpl String.length. lia.
      * unfold Py.len. simpl String.length. lia.
    + f_equal. f_equal.
      change (String Py.dquote (inside ++ String Py.dquote after))
        with ((String Py.dquote inside) ++ String Py.dquote after).
      replace (String Py.dquote inside ++ String Py.dquote after)
        with ((String Py.dquote inside ++ String Py.dquote EmptyString) ++ after).
      * replace (0 + Py.len inside + 1 + 1)
          with (Py.len (String Py.dquote inside ++ String Py.dquote EmptyString)).
        -- apply slice_from_app.
        -- unfold Py.len. rewrite length_app. simpl String.length. lia.
      * simpl. f_equal. clear. induction inside as [|c i IH]; simpl;
          [reflexivity | now rewrite IH].
  - reflexivity.
Qed.

Lemma next_arg_plain_eq (q : ascii) (body : string) :
  Ascii.eqb q Py.dquote = false ->
  next_arg (String q body) = next_arg_contract true (String q body).
Proof.
  intros Hq. unfold next_arg, next_arg_contract. rewrite Hq.
  assert (Hs : Py.startswith (String q body) (String Py.dquote EmptyString) = false).
  { change (Py.startswith (String q body) (String Py.dquote EmptyString))
      with (Ascii.eqb Py.dquote q && true).
    now rewrite Ascii.eqb_sym, Hq. }
  rewrite Hs. unfold Py.find. rewrite find_from_cut.
  destruct (cut " "%char (String q body)) as [[before rest]|] eqn:E.
  - destruct (cut_some _ _ _ _ E) as [Hsplit _]. rewrite Hsplit.
    assert (Hpos : (0 + Py.len before >=? 0) = true).
    { apply Z.geb_le. unfold Py.len. lia. }
    rewrite Hpos. change (0 + Py.len before) with (Py.len before).
    now rewrite slice_to_app, slice_from_app.
  - reflexivity.
Qed.

Lemma next_arg_contract_eq (s : string) : next_arg s = next_arg_contract true s.
Proof.
  destruct s as [|q body]; [reflexivity|].
  destruct (Ascii.eqb_spec q Py.dquote) as [->|Hne].
  - apply next_arg_quoted_eq.
  - apply next_arg_plain_eq. now apply Ascii.eqb_neq.
Qed.

Lemma cut_before_free (c : ascii) (s before rest : string) :
  cut c s = Some (before, rest) -> cut c before = None.
Proof.
  revert before rest. induction s as [|x s IH]; simpl; intros before rest H.
  - discriminate.
  - destruct (Ascii.eqb x c) eqn:Hx.
    + now inversion H.
    + destruct (cut c s) as [[b r]|] eqn:E; [|discriminate].
      inversion H; subst. simpl. rewrite Hx. now rewrite (IH b rest eq_refl).
Qed.

(** C2 (amended): for every input, [next_arg] computes the tokenizer
    contract in which the unquoted token is the trimmed text up to the first
    space.  A quoted input with a closing quote gives the text between the
    quotes and the trimmed text after the closing quote; an unterminated
    quote gives everything after the opening quote and no remainder; an
    unquoted input gives the trimmed text before the first space and the
    trimmed text from that space on, or the whole trimmed string and no
    remainder; the empty input gives the empty token and no remainder. *)
Theorem next_arg_meets_trimmed_contract (s : string) :
  next_arg s = next_arg_contract true s
  /\ (forall before rest,
        cut " "%char s = Some (before, rest) ->
        s = before ++ rest /\ cut " "%char before = None).
Proof.
  split; [apply next_arg_contract_eq|].
  intros before rest H. split.
  - apply (cut_some _ _ _ _ H).
  - apply (cut_before_free _ _ _ _ H).
Qed.

Lemma next_arg_meets_trimmed_contract_witness :
  next_arg ("set" ++ newline ++ " name Alice") = ("set", Some "name Alice")
  /\ "set" ++ newline ++ " name Alice" = ("set" ++ newline) ++ " name Alice".
Proof.
  destruct (next_arg_meets_trimmed_contract ("set" ++ newline ++ " name Alice"))
    as [H1 H2].
  split.
  - rewrite H1. reflexivity.
  - apply (H2 ("set" ++ newline) " name Alice"). reflexivity.
Defined.

(** C2 (as stated) fails: on [a<LF> b] the text up to the first space is
    [a<LF>], while [next_arg] returns the token [a]. *)
Lemma next_arg_token_not_verbatim :
  next_arg_spec ("a" ++ newline ++ " b") = ("a" ++ newline, Some "b")
  /\ next_arg ("a" ++ newline ++ " b") = ("a", Some "b")
  /\ next_arg ("a" ++ newline ++ " b") <> next_arg_spec ("a" ++ newline ++ " b").
Proof. repeat split; vm_compute; discriminate. Qed.

(** ** The argument cursor *)

Lemma lstrip_no_leading_space (s : string) :
  no_leading_space (Py.lstrip s) = true.
Proof.
  induction s as [|c s IH]; simpl; [reflexivity|].
  destruct (Py.isspace c) eqn:E; [exact IH|]. simpl. now rewrite E.
Qed.

Lemma rstrip_no_leading_space (s : string) :
  no_leading_space s = true -> no_leading_space (Py.rstrip s) = true.
Proof.
  destruct s as [|c s]; simpl; [reflexivity|]. intros H.
  destruct (Py.rstrip s); simpl.
  - apply negb_true_iff in H. rewrite H. simpl. now rewrite H.
  - exact H.
Qed.

Lemma strip_no_leading_space (s : string) :
  no_leading_space (Py.strip s) = true.
Proof. apply rstrip_no_leading_space, lstrip_no_leading_space. Qed.

Lemma startswith_refl (s : string) : Py.startswith s s = true.
Proof. induction s as [|c s IH]; simpl; [reflexivity|]. now rewrite Ascii.eqb_refl. Qed.

Lemma startswith_app (n b : string) : Py.startswith (n ++ b) n = true.
Proof. induction n as [|c n IH]; simpl; [reflexivity|]. now rewrite Ascii.eqb_refl. Qed.

Lemma startswith_rstrip (s : string) : Py.startswith s (Py.rstrip s) = true.
Proof.
  induction s as [|c s IH]; simpl; [reflexivity|].
  destruct (Py.rstrip s) as [|d r] eqn:E.
  - destruct (Py.isspace c); simpl; [reflexivity|]. now rewrite Ascii.eqb_refl.
  - simpl. rewrite Ascii.eqb_refl. simpl. exact IH.
Qed.

Lemma contains_prefix (n s : string) :
  Py.startswith s n = true -> contains n s = true.
Proof. intros H. destruct s; simpl; rewrite H; reflexivity. Qed.

Lemma contains_app (a n b : string) : contains n (a ++ n ++ b) = true.
Proof.
  induction a as [|c a IH]; simpl.
  - apply contains_prefix, startswith_app.
  - rewrite IH. apply orb_true_r.
Qed.

Lemma contains_strip (s : string) : contains (Py.strip s) s = true.
Proof.
  induction s as [|c s IH]; [reflexivity|].
  unfold Py.strip. simpl Py.lstrip.
  destruct (Py.isspace c) eqn:E.
  - simpl. fold (Py.strip s). rewrite IH. apply orb_true_r.
  - apply contains_prefix, startswith_rstrip.
Qed.

Lemma app_empty_r (s : string) : s ++ EmptyString = s.
Proof. induction s as [|c s IH]; simpl; [reflexivity | now rewrite IH]. Qed.

(** What [next_arg] consumes: the token lies in a front part of the input
    and the remainder is the trimmed rest. *)
Lemma next_arg_consumes (s tok : string) (rem : option string) :
  next_arg s = (tok, rem) ->
  exists consumed rest,
    s = consumed ++ rest
    /\ contains tok consumed = true
    /\ cursor_text rem = Py.strip rest.
Proof.
  rewrite next_arg_contract_eq. unfold next_arg_contract.
  destruct s as [|q body].
  - intros H; inversion H; subst. now exists EmptyString, EmptyString.
  - destruct (Ascii.eqb_spec q Py.dquote) as [->|Hne].
    + destruct (cut Py.dquote body) as [[inside [|d after]]|] eqn:E.
      * intros H; inversion H; subst.
        exists (String Py.dquote tok), EmptyString.
        rewrite app_empty_r. repeat split.
        change (String Py.dquote tok) with (String Py.dquote EmptyString ++ tok).
        rewrite <- (app_empty_r tok) at 2.
        apply (contains_app (String Py.dquote EmptyString) tok EmptyString).
      * intros H; inversion H; subst.
        destruct (cut_some _ _ _ _ E) as [-> _].
        exists (String Py.dquote tok ++ String d EmptyString), after.
        repeat split.
        -- simpl. f_equal. clear. induction tok as [|c t IH]; simpl;
             [reflexivity | now rewrite IH].
        -- apply (contains_app (String Py.dquote EmptyString) tok
                    (String d EmptyString)).
      * intros H; inversion H; subst.
        exists (String Py.dquote tok), EmptyString.
        rewrite app_empty_r. repeat split.
        change (String Py.dquote tok) with (String Py.dquote EmptyString ++ tok).
        rewrite <- (app_empty_r tok) at 2.
        apply (contains_app (String Py.dquote EmptyString) tok EmptyString).
    + destruct (cut " "%char (String q body)) as [[before rest]|] eqn:E.
      * intros H; inversion H; subst.
        destruct (cut_some _ _ _ _ E) as [Hs _].
        exists before, rest. repeat split; [exact Hs | apply contains_strip].
      * intros H; inversion H; subst.
        exists (String q body), EmptyString.
        rewrite app_empty_r. repeat split. apply contains_strip.
Qed.

Lemma pop_str_nonempty (error : option Exn) (ctx : CommandContext)
  (c : ascii) (s tok : string) (rem : option string) :
  args ctx = Some (String c s) ->
  next_arg (String c s) = (tok, rem) ->
  pop_str error ctx = (Return (Some tok), mkContext (message ctx) rem, []).
Proof.
  intros Ha Hn. unfold pop_str, bind, get_ctx, set_args, ret.
  rewrite Ha, Hn. reflexivity.
Qed.

Lemma pop_str_empty (error : option Exn) (ctx : CommandContext) :
  Py.truthy (args ctx) = false ->
  pop_str error ctx =
    (match error with Some e => Raise e | None => Return None end, ctx, []).
Proof.
  intros H. unfold pop_str, bind, get_ctx, raise, ret.
  destruct (args ctx) as [[|c s]|]; try discriminate; now destruct error.
Qed.

(** C5: on a cursor with no remaining text, [pop_str] raises the supplied
    error when one is supplied and returns the empty value [None] when none
    is; either way the context is the one it was given and nothing else
    happens. *)
Theorem pop_str_on_empty_cursor (error : option Exn) (ctx : CommandContext) :
  Py.truthy (args ctx) = false ->
  pop_str error ctx =
    (match error with Some e => Raise e | None => Return None end, ctx, [])
  /\ ((exists e, outcome_of (pop_str error) ctx = Raise e) <-> error <> None).
Proof.
  intros H. split; [now apply pop_str_empty|].
  unfold outcome_of. rewrite (pop_str_empty _ _ H). simpl.
  destruct error as [e|]; split.
  - discriminate.
  - intros _. now exists e.
  - intros [e He]. discriminate.
  - intros Hn. now contradiction Hn.
Qed.

Lemma pop_str_on_empty_cursor_witness :
  pop_str (Some (CommandError "You must pass a message ID." None))
          (mkContext (sample_message "pk;message") (Some EmptyString))
  = (Raise (CommandError "You must pass a message ID." None),
     mkContext (sample_message "pk;message") (Some EmptyString), [])
  /\ pop_str None (mkContext (sample_message "pk;help") None)
     = (Return None, mkContext (sample_message "pk;help") None, []).
Proof.
  split.
  - apply (pop_str_on_empty_cursor
             (Some (CommandError "You must pass a message ID." None))
             (mkContext (sample_message "pk;message") (Some EmptyString))).
    reflexivity.
  - apply (pop_str_on_empty_cursor None
             (mkContext (sample_message "pk;help") None)).
    reflexivity.
Defined.

Lemma pop_str_no_events (error : option Exn) (ctx : CommandContext) :
  events_of (pop_str error) ctx = [].
Proof.
  unfold events_of.
  destruct (args ctx) as [[|c s]|] eqn:Ha.
  - rewrite pop_str_empty by now rewrite Ha. reflexivity.
  - destruct (next_arg (String c s)) as [tok rem] eqn:Hn.
    now rewrite (pop_str_nonempty error ctx c s tok rem Ha Hn).
  - rewrite pop_str_empty by now rewrite Ha. reflexivity.
Qed.

Lemma pop_str_cursor_trimmed (error : option Exn) (ctx : CommandContext) :
  no_leading_space (cursor_text (cursor_after (pop_str error) ctx)) = true.
Proof.
  unfold cursor_after.
  destruct (args ctx) as [[|c s]|] eqn:Ha.
  - rewrite pop_str_empty by now rewrite Ha. simpl. now rewrite Ha.
  - destruct (next_arg (String c s)) as [tok rem] eqn:Hn.
    rewrite (pop_str_nonempty error ctx c s tok rem Ha Hn). simpl.
    rewrite next_arg_contract_eq in Hn. unfold next_arg_contract in Hn.
    destruct (Ascii.eqb c Py.dquote).
    + destruct (cut Py.dquote s) as [[inside [|d after]]|];
        inversion Hn; subst; simpl; try reflexivity.
      apply strip_no_leading_space.
    + destruct (cut " "%char (String c s)) as [[before rest]|];
        inversion Hn; subst; simpl; try reflexivity.
      apply strip_no_leading_space.
  - rewrite pop_str_empty by now rewrite Ha. simpl. now rewrite Ha.
Qed.

Lemma pop_system_cursor (W : World) (error : option Exn) (ctx : CommandContext) :
  cursor_after (pop_system W error) ctx = cursor_after (pop_str error) ctx.
Proof.
  unfold cursor_after, pop_system, bind at 1.
  destruct (pop_str error ctx) as [[[name|e] ctx1] ev1]; [|reflexivity].
  unfold bind, emit, raise, ret.
  now destruct (get_system_fuzzy W name).
Qed.

Lemma pop_member_cursor (W : World) (error : option Exn) (system_only : bool)
  (ctx : CommandContext) :
  cursor_after (pop_member W error system_only) ctx
  = cursor_after (pop_str error) ctx.
Proof.
  unfold cursor_after, pop_member, bind at 1.
  destruct (pop_str error ctx) as [[[name|e] ctx1] ev1]; [|reflexivity].
  unfold ensure_system, get_system, bind, emit, raise, ret, get_ctx.
  destruct system_only;
    destruct (get_system_by_account W (user_id (msg_author (message ctx1))));
    simpl; try reflexivity;
    match goal with
    | |- context [get_member_fuzzy ?w ?a ?b ?c] =>
        now destruct (get_member_fuzzy w a b c)
    end.
Qed.

(** C7 (amended): after [pop_str], [pop_system] or [pop_member] the
    cursor's remaining text has no leading whitespace; a popped token comes
    from a front part of the previous cursor text and the remaining text is
    the trimmed rest after that part.  Nothing is said about the token not
    occurring again further on. *)
Theorem pop_leaves_trimmed_rest (W : World) (error : option Exn)
  (system_only : bool) (ctx : CommandContext) :
  no_leading_space (cursor_text (cursor_after (pop_str error) ctx)) = true
  /\ cursor_after (pop_system W error) ctx = cursor_after (pop_str error) ctx
  /\ cursor_after (pop_member W error system_only) ctx
     = cursor_after (pop_str error) ctx
  /\ (forall tok,
        outcome_of (pop_str error) ctx = Return (Some tok) ->
        exists consumed rest,
          cursor_text (args ctx) = consumed ++ rest
          /\ contains tok consumed = true
          /\ cursor_text (cursor_after (pop_str error) ctx) = Py.strip rest).
Proof.
  split; [apply pop_str_cursor_trimmed|].
  split; [apply pop_system_cursor|].
  split; [apply pop_member_cursor|].
  intros tok. unfold outcome_of, cursor_after.
  destruct (args ctx) as [[|c s]|] eqn:Ha.
  - rewrite pop_str_empty by now rewrite Ha. now destruct error.
  - destruct (next_arg (String c s)) as [tok' rem] eqn:Hn.
    rewrite (pop_str_nonempty error ctx c s tok' rem Ha Hn). simpl.
    intros H; inversion H; subst. now apply next_arg_consumes.
  - rewrite pop_str_empty by now rewrite Ha. now destruct error.
Qed.

Lemma pop_leaves_trimmed_rest_witness :
  exists consumed rest,
    String Py.dquote "Alice B" ++ String Py.dquote " bar baz" = consumed ++ rest
    /\ contains "Alice B" consumed = true
    /\ Some "bar baz" = Some (Py.strip rest).
Proof.
  destruct (pop_leaves_trimmed_rest (sample_world None) None true
              (mkContext (sample_message "pk;member")
                 (Some (String Py.dquote "Alice B" ++ String Py.dquote " bar baz"))))
    as (_ & _ & _ & H).
  destruct (H "Alice B" eq_refl) as (consumed & rest & H1 & H2 & H3).
  exists consumed, rest. repeat split; [exact H1 | exact H2 |].
  now rewrite <- H3.
Defined.

(** C7 (as stated) fails: popping from the cursor [a a] returns the token
    [a] and leaves [a], which contains the popped token. *)
Lemma pop_str_rest_contains_token :
  outcome_of (pop_str None) (mkContext (sample_message "pk;switch a a") (Some "a a"))
    = Return (Some "a")
  /\ cursor_after (pop_str None)
       (mkContext (sample_message "pk;switch a a") (Some "a a")) = Some "a"
  /\ contains "a" "a" = true.
Proof. repeat split. Qed.

(** ** The invoker's system *)

Lemma get_system_run (W : World) (ctx : CommandContext) :
  get_system W ctx
  = (Return (get_system_by_account W (invoker ctx)), ctx,
     [EvGetSystemByAccount (invoker ctx)]).
Proof. reflexivity. Qed.

Lemma ensure_system_run (W : World) (ctx : CommandContext) (s : System) :
  get_system_by_account W (invoker ctx) = Some s ->
  ensure_system W ctx = (Return s, ctx, [EvGetSystemByAccount (invoker ctx)]).
Proof.
  intros H. unfold ensure_system, bind. rewrite get_system_run, H. reflexivity.
Qed.


Lemma identity_calls_run (W : World) (calls : list IdentityCall)
  (ctx : CommandContext) (s : System) :
  get_system_by_account W (invoker ctx) = Some s ->
  identity_calls W calls ctx
  = (Return tt, ctx,
     map (fun _ => EvGetSystemByAccount (invoker ctx)) calls).
Proof.
  intros H. induction calls as [|[|] calls IH]; simpl.
  - reflexivity.
  - unfold bind. rewrite get_system_run, IH. reflexivity.
  - unfold bind. rewrite (ensure_system_run W ctx s H), IH. reflexivity.
Qed.

(** C4 (amended): the context keeps no copy of the invoker's system.
    Every call of [get_system] or [ensure_system] asks the database again:
    when the account has a system, a dispatch that makes [n] such calls
    performs [n] fetches, each for the invoking account, and every call
    returns what the database answered. *)
Theorem system_fetched_on_every_call (W : World) (calls : list IdentityCall)
  (ctx : CommandContext) (s : System) :
  get_system_by_account W (invoker ctx) = Some s ->
  fetches (events_of (identity_calls W calls) ctx) = List.length calls
  /\ outcome_of (get_system W) ctx = Return (Some s)
  /\ outcome_of (ensure_system W) ctx = Return s
  /\ events_of (get_system W) ctx = [EvGetSystemByAccount (invoker ctx)]
  /\ events_of (ensure_system W) ctx = [EvGetSystemByAccount (invoker ctx)].
Proof.
  intros H. unfold events_of, outcome_of.
  rewrite (identity_calls_run W calls ctx s H), get_system_run,
    (ensure_system_run W ctx s H), H.
  repeat split. simpl. unfold fetches.
  induction calls as [|c calls IH]; simpl; [reflexivity | now rewrite IH].
Qed.

Lemma system_fetched_on_every_call_witness :
  fetches (events_of
             (identity_calls (sample_world None)
                [CallEnsureSystem; CallGetSystem; CallEnsureSystem])
             (mkContext (sample_message "pk;export") (Some EmptyString)))
  = 3%nat.
Proof.
  apply (system_fetched_on_every_call (sample_world None)
           [CallEnsureSystem; CallGetSystem; CallEnsureSystem]
           (mkContext (sample_message "pk;export") (Some EmptyString))
           sample_system).
  reflexivity.
Defined.

(** C4 (as stated) fails: after a successful [ensure_system], a
    [get_system] in the same dispatch fetches from the database again, so
    the dispatch has performed two fetches. *)
Lemma system_fetched_twice :
  outcome_of (ensure_system (sample_world None))
    (mkContext (sample_message "pk;export") (Some EmptyString))
  = Return sample_system
  /\ events_of (identity_calls (sample_world None) [CallEnsureSystem; CallGetSystem])
       (mkContext (sample_message "pk;export") (Some EmptyString))
     = [EvGetSystemByAccount "1001"; EvGetSystemByAccount "1001"]
  /\ ~ (fetches (events_of
                   (identity_calls (sample_world None)
                      [CallEnsureSystem; CallGetSystem])
                   (mkContext (sample_message "pk;export") (Some EmptyString)))
        <= 1)%nat.
Proof.
  repeat split. vm_compute. intros H.
  apply (Nat.nle_succ_diag_l 1). exact H.
Qed.

(** ** Confirmation *)

(** C6: both confirmations wait once, with a timeout of 300 seconds.  When
    the wait yields nothing each raises
    [CommandError("Timed out - try again.")]; when a reaction arrives
    [confirm_react] returns true exactly when its emoji is the check mark,
    and when a message arrives [confirm_text] returns whether its content
    equals the expected text. *)
Theorem confirmations_bounded (W : World) (user : User)
  (channel confirm text : string) (ctx : CommandContext) :
  confirm_timeout = 300%float
  /\ filter is_wait (events_of (confirm_react W user text) ctx)
     = [EvWaitForReaction [check_mark; cross_mark] user 300%float]
  /\ filter is_wait (events_of (confirm_text W user channel confirm text) ctx)
     = [EvWaitForMessage channel user 300%float]
  /\ (wait_for_reaction W [check_mark; cross_mark] user 300%float = None ->
      outcome_of (confirm_react W user text) ctx
      = Raise (CommandError "Timed out - try again." None))
  /\ (forall r,
        wait_for_reaction W [check_mark; cross_mark] user 300%float = Some r ->
        exists b,
          outcome_of (confirm_react W user text) ctx = Return b
          /\ (b = true <-> reaction_emoji r = check_mark))
  /\ (wait_for_message W channel user 300%float = None ->
      outcome_of (confirm_text W user channel confirm text) ctx
      = Raise (CommandError "Timed out - try again." None))
  /\ (forall m,
        wait_for_message W channel user 300%float = Some m ->
        exists b,
          outcome_of (confirm_text W user channel confirm text) ctx = Return b
          /\ (b = true <-> msg_content m = confirm)).
Proof.
  assert (Ht : confirm_timeout = 300%float) by reflexivity.
  split; [exact Ht|].
  unfold events_of, outcome_of, confirm_react, confirm_text, reply,
    bind, emit, raise, ret, get_ctx.
  rewrite Ht.
  repeat split.
  - now destruct (wait_for_reaction W [check_mark; cross_mark] user 300%float).
  - now destruct (wait_for_message W channel user 300%float).
  - intros H. now rewrite H.
  - intros r H. rewrite H. simpl.
    exists (String.eqb (reaction_emoji r) check_mark).
    split; [reflexivity | apply String.eqb_eq].
  - intros H. now rewrite H.
  - intros m H. rewrite H. simpl.
    exists (String.eqb (msg_content m) confirm).
    split; [reflexivity | apply String.eqb_eq].
Qed.

Lemma confirmations_bounded_witness :
  outcome_of (confirm_react (sample_world None) alice "Delete the system?")
    (mkContext (sample_message "pk;system delete") (Some EmptyString))
  = Raise (CommandError "Timed out - try again." None).
Proof.
  apply (confirmations_bounded (sample_world None) alice "9009" "abcde"
           "Delete the system?"
           (mkContext (sample_message "pk;system delete") (Some EmptyString))).
  reflexivity.
Defined.

(** ** The dispatcher boundary *)

Lemma run_command_raised_error (W : World) (func : Handler)
  (ctx ctx1 : CommandContext) (evs : list Event)
  (text : string) (help : option (string * string)) :
  handler_body W func ctx = (Raise (CommandError text help), ctx1, evs) ->
  run_command W func ctx
  = (Return tt, ctx1,
     (EvCall func (args ctx) :: evs ++ [error_reply ctx1 text help])%list).
Proof.
  intros H. unfold run_command, try_except, call, bind, get_ctx, emit.
  rewrite H. reflexivity.
Qed.

Lemma run_command_returned_error (W : World) (func : Handler)
  (ctx ctx1 : CommandContext) (evs : list Event)
  (text : string) (help : option (string * string)) :
  handler_body W func ctx = (Return (VCommandError text help), ctx1, evs) ->
  run_command W func ctx
  = (Return tt, ctx1,
     (EvCall func (args ctx) :: evs ++ [error_reply ctx1 text help])%list).
Proof.
  intros H. unfold run_command, try_except, call, bind, get_ctx, emit.
  rewrite H. reflexivity.
Qed.

Lemma log_error_in_channel_sends (W : World) (e : Exn) (ctx : CommandContext)
  (c : ascii) (id : string) :
  environ W "LOG_CHANNEL" = Some (String c id) ->
  log_error_in_channel W e ctx
  = (Return tt, ctx,
     [EvSendMessage (GetChannel (String c id))
        (Some ("```python" ++ newline ++ format_exc W e ++ "```"))
        (Some (log_embed ctx))]).
Proof. intros H. unfold log_error_in_channel. rewrite H. reflexivity. Qed.

Lemma log_error_in_channel_silent (W : World) (e : Exn) (ctx : CommandContext) :
  environ W "LOG_CHANNEL" = Some EmptyString ->
  log_error_in_channel W e ctx = (Return tt, ctx, []).
Proof. intros H. unfold log_error_in_channel. rewrite H. reflexivity. Qed.

Lemma run_command_raised_other (W : World) (func : Handler)
  (ctx ctx1 : CommandContext) (evs : list Event) (e : Exn) :
  handler_body W func ctx = (Raise e, ctx1, evs) ->
  is_CommandError e = false ->
  is_Exception e = true ->
  run_command W func ctx
  = (fst (fst (log_error_in_channel W e ctx1)),
     snd (fst (log_error_in_channel W e ctx1)),
     (EvCall func (args ctx) :: evs
      ++ EvLoggerException "Exception while dispatching command"
         :: snd (log_error_in_channel W e ctx1))%list).
Proof.
  intros H He Hx. unfold run_command, try_except, call, bind, get_ctx, emit.
  rewrite H.
  destruct e as [t h|k|d|b]; [discriminate| | |discriminate];
    destruct (log_error_in_channel W _ ctx1) as [[o c2] ev2]; reflexivity.
Qed.

Lemma run_command_raised_base (W : World) (func : Handler)
  (ctx ctx1 : CommandContext) (evs : list Event) (e : Exn) :
  handler_body W func ctx = (Raise e, ctx1, evs) ->
  is_Exception e = false ->
  run_command W func ctx = (Raise e, ctx1, EvCall func (args ctx) :: evs).
Proof.
  intros H Hx. unfold run_command, try_except, call, bind, get_ctx, emit, raise.
  rewrite H. destruct e as [t h|k|d|b]; try discriminate.
  simpl. now rewrite app_nil_r.
Qed.

Lemma log_error_in_channel_only_logs (W : World) (e : Exn) (ctx : CommandContext) :
  forallb is_channel_log (snd (log_error_in_channel W e ctx)) = true.
Proof.
  unfold log_error_in_channel.
  destruct (environ W "LOG_CHANNEL") as [[|c id]|]; reflexivity.
Qed.

Lemma log_error_in_channel_no_reply (W : World) (e : Exn) (ctx : CommandContext) :
  filter is_reply (snd (log_error_in_channel W e ctx)) = [].
Proof.
  unfold log_error_in_channel.
  destruct (environ W "LOG_CHANNEL") as [[|c id]|]; reflexivity.
Qed.

Lemma run_command_no_reply (W : World) (func : Handler)
  (ctx ctx1 : CommandContext) (evs : list Event) (e : Exn) :
  handler_body W func ctx = (Raise e, ctx1, evs) ->
  is_CommandError e = false ->
  is_Exception e = true ->
  filter is_reply (events_of (run_command W func) ctx) = filter is_reply evs.
Proof.
  intros H He Hx. unfold events_of.
  rewrite (run_command_raised_other W func ctx ctx1 evs e H He Hx).
  cbn [snd filter is_reply]. rewrite filter_app. cbn [filter is_reply].
  rewrite log_error_in_channel_no_reply. apply app_nil_r.
Qed.

(** C3 (amended): a [CommandError] raised by the handler is caught once in
    [run_command] and rendered to the invoking channel as the error embed
    of its text and help reference.  Any other exception that is an
    instance of [Exception] is logged through the module logger, whatever
    [LOG_CHANNEL] is, and then handed to [log_error_in_channel]; the
    dispatcher makes no reply for it, and whatever it sends is addressed to
    the channel looked up from [LOG_CHANNEL].  When [LOG_CHANNEL] holds
    a non-empty channel id, the traceback and an embed with the message
    content and the sender, server (or [(DMs)]) and channel footer are sent
    to that channel; when [LOG_CHANNEL] is empty nothing is sent.  An
    exception that is no instance of [Exception] is not caught: it leaves
    [run_command] with nothing logged and nothing sent. *)
Theorem run_command_on_raise (W : World) (func : Handler)
  (ctx ctx1 : CommandContext) (evs : list Event) (e : Exn) :
  handler_body W func ctx = (Raise e, ctx1, evs) ->
  (forall text help,
     e = CommandError text help ->
     run_command W func ctx
     = (Return tt, ctx1,
        (EvCall func (args ctx) :: evs ++ [error_reply ctx1 text help])%list))
  /\ (is_CommandError e = false ->
      is_Exception e = true ->
      events_of (run_command W func) ctx
      = (EvCall func (args ctx) :: evs
         ++ EvLoggerException "Exception while dispatching command"
            :: events_of (log_error_in_channel W e) ctx1)%list
      /\ forallb is_channel_log (events_of (log_error_in_channel W e) ctx1) = true
      /\ filter is_reply (events_of (run_command W func) ctx)
         = filter is_reply evs)
  /\ (forall c id,
        is_CommandError e = false ->
        is_Exception e = true ->
        environ W "LOG_CHANNEL" = Some (String c id) ->
        run_command W func ctx
        = (Return tt, ctx1,
           (EvCall func (args ctx) :: evs
            ++ [EvLoggerException "Exception while dispatching command";
                EvSendMessage (GetChannel (String c id))
                  (Some (traceback_block (format_exc W e)))
                  (Some (log_embed ctx1))])%list))
  /\ (is_CommandError e = false ->
      is_Exception e = true ->
      environ W "LOG_CHANNEL" = Some EmptyString ->
      run_command W func ctx
      = (Return tt, ctx1,
         (EvCall func (args ctx) :: evs
          ++ [EvLoggerException "Exception while dispatching command"])%list))
  /\ (is_Exception e = false ->
      run_command W func ctx = (Raise e, ctx1, EvCall func (args ctx) :: evs)).
Proof.
  intros H. split; [|split; [|split; [|split]]].
  - intros text help ->. now apply run_command_raised_error.
  - intros He Hx. split; [|split].
    + unfold events_of at 1.
      now rewrite (run_command_raised_other W func ctx ctx1 evs e H He Hx).
    + apply log_error_in_channel_only_logs.
    + now apply (run_command_no_reply W func ctx ctx1 evs e).
  - intros c id He Hx Henv.
    rewrite (run_command_raised_other W func ctx ctx1 evs e H He Hx).
    now rewrite (log_error_in_channel_sends W e ctx1 c id Henv).
  - intros He Hx Henv.
    rewrite (run_command_raised_other W func ctx ctx1 evs e H He Hx).
    now rewrite (log_error_in_channel_silent W e ctx1 Henv).
  - intros Hx. now apply run_command_raised_base.
Qed.

Lemma run_command_on_raise_witness :
  run_command (sample_world (Some "777")) system_commands_system_info
    (mkContext (sample_message "pk;system") (Some EmptyString))
  = (Return tt, mkContext (sample_message "pk;system") (Some EmptyString),
     [EvCall system_commands_system_info (Some EmptyString);
      EvLoggerException "Exception while dispatching command";
      EvSendMessage (GetChannel "777")
        (Some ("```python" ++ newline ++ "Traceback (most recent call last)```"))
        (Some (log_embed (mkContext (sample_message "pk;system") (Some EmptyString))))])
  /\ events_of (run_command (sample_world None) system_commands_system_info)
       (mkContext (sample_message "pk;system") (Some EmptyString))
     = [EvCall system_commands_system_info (Some EmptyString);
        EvLoggerException "Exception while dispatching command"].
Proof.
  split.
  - destruct (run_command_on_raise (sample_world (Some "777"))
                system_commands_system_info
                (mkContext (sample_message "pk;system") (Some EmptyString))
                (mkContext (sample_message "pk;system") (Some EmptyString))
                [] (OtherException "RuntimeError") eq_refl)
      as (_ & _ & H & _).
    apply (H "7"%char "77"); reflexivity.
  - destruct (run_command_on_raise (sample_world None)
                system_commands_system_info
                (mkContext (sample_message "pk;system") (Some EmptyString))
                (mkContext (sample_message "pk;system") (Some EmptyString))
                [] (OtherException "RuntimeError") eq_refl)
      as (_ & H & _).
    destruct (H eq_refl eq_refl) as (Hev & _). exact Hev.
Defined.

(** C3 (as stated) fails twice over.  With [LOG_CHANNEL] set to the empty
    string an exception other than [CommandError] is logged by the module
    logger only and nothing is sent to any channel.  And with a log channel
    configured, a [KeyboardInterrupt] raised by the handler is not caught at
    all: it leaves [run_command] with nothing logged. *)
Lemma unhandled_exception_not_logged_to_channel :
  (run_command (sample_world (Some EmptyString)) system_commands_system_info
     (mkContext (sample_message "pk;system") (Some EmptyString))
   = (Return tt, mkContext (sample_message "pk;system") (Some EmptyString),
      [EvCall system_commands_system_info (Some EmptyString);
       EvLoggerException "Exception while dispatching command"])
   /\ filter is_channel_log
        (events_of (run_command (sample_world (Some EmptyString))
                      system_commands_system_info)
           (mkContext (sample_message "pk;system") (Some EmptyString)))
      = [])
  /\ run_command (interrupted_world (Some "777")) system_commands_system_info
       (mkContext (sample_message "pk;system") (Some EmptyString))
     = (Raise (BaseExceptionOnly "KeyboardInterrupt"),
        mkContext (sample_message "pk;system") (Some EmptyString),
        [EvCall system_commands_system_info (Some EmptyString)]).
Proof. repeat split. Qed.

(** ** Handlers that return their error *)

Lemma show_help_unknown (W : World) (ctx ctx1 : CommandContext)
  (category : option string) :
  help_category ctx = (Return category, ctx1, []) ->
  help_pages W category = None ->
  show_help W ctx
  = (Return (VCommandError
               ("Unknown help page '" ++ format_arg category ++ "'.") None),
     ctx1, []).
Proof.
  unfold help_category, show_help, has_next, bind, get_ctx, ret.
  intros H Hp.
  destruct ((if Py.truthy (args ctx) then pop_str None
             else fun c : CommandContext => (Return None, c, [])) ctx)
    as [[o c2] ev2] eqn:E.
  destruct o as [cat|e]; [|discriminate].
  inversion H; subst. rewrite Hp. reflexivity.
Qed.

Lemma message_info_not_a_number (W : World) (ctx : CommandContext)
  (c : ascii) (s tok : string) (rem : option string) :
  args ctx = Some (String c s) ->
  next_arg (String c s) = (tok, rem) ->
  py_int W tok = None ->
  message_info W ctx
  = (Return (VCommandError "You must pass a valid number as a message ID."
                           (Some (help_message_lookup W))),
     mkContext (message ctx) rem, []).
Proof.
  intros Ha Hn Hi. unfold message_info, bind.
  rewrite (pop_str_nonempty _ ctx c s tok rem Ha Hn), Hi. reflexivity.
Qed.

(** C9: a handler that returns a [CommandError] value gets the same reply
    from [run_command] as one that raises it: the cross-mark error embed of
    its text and help reference, sent to the invoking channel.  [show_help]
    returns such a value for a category that is not a help page, and
    [message_info] for a token [int] rejects; both are rendered that way. *)
Theorem returned_error_is_rendered (W : World) (func : Handler)
  (ctx ctx1 : CommandContext) (evs : list Event)
  (text : string) (help : option (string * string)) :
  (handler_body W func ctx = (Return (VCommandError text help), ctx1, evs)
   \/ handler_body W func ctx = (Raise (CommandError text help), ctx1, evs) ->
   run_command W func ctx
   = (Return tt, ctx1,
      (EvCall func (args ctx) :: evs ++ [error_reply ctx1 text help])%list))
  /\ (forall category,
        help_category ctx = (Return category, ctx1, []) ->
        help_pages W category = None ->
        run_command W misc_commands_show_help ctx
        = (Return tt, ctx1,
           [EvCall misc_commands_show_help (args ctx);
            error_reply ctx1
              ("Unknown help page '" ++ format_arg category ++ "'.") None]))
  /\ (forall c s tok rem,
        args ctx = Some (String c s) ->
        next_arg (String c s) = (tok, rem) ->
        py_int W tok = None ->
        run_command W message_commands_message_info ctx
        = (Return tt, mkContext (message ctx) rem,
           [EvCall message_commands_message_info (args ctx);
            error_reply (mkContext (message ctx) rem)
              "You must pass a valid number as a message ID."
              (Some (help_message_lookup W))])).
Proof.
  repeat split.
  - intros [H|H].
    + now apply run_command_returned_error.
    + now apply run_command_raised_error.
  - intros category Hc Hp.
    apply (run_command_returned_error W misc_commands_show_help ctx ctx1 []).
    now apply show_help_unknown.
  - intros c s tok rem Ha Hn Hi.
    apply (run_command_returned_error W message_commands_message_info ctx
             (mkContext (message ctx) rem) []).
    now apply (message_info_not_a_number W ctx c s tok rem).
Qed.

Lemma returned_error_is_rendered_witness :
  run_command (sample_world None) misc_commands_show_help
    (mkContext (sample_message "pk;help me") (Some "me"))
  = (Return tt, mkContext (sample_message "pk;help me") None,
     [EvCall misc_commands_show_help (Some "me");
      error_reply (mkContext (sample_message "pk;help me") None)
        "Unknown help page 'me'." None])
  /\ run_command (sample_world None) message_commands_message_info
       (mkContext (sample_message "pk;message x12") (Some "x12"))
     = (Return tt, mkContext (sample_message "pk;message x12") None,
        [EvCall message_commands_message_info (Some "x12");
         error_reply (mkContext (sample_message "pk;message x12") None)
           "You must pass a valid number as a message ID."
           (Some ("Looking up a message", "pk;message <id>"))]).
Proof.
  split.
  - destruct (returned_error_is_rendered (sample_world None)
                misc_commands_show_help
                (mkContext (sample_message "pk;help me") (Some "me"))
                (mkContext (sample_message "pk;help me") None)
                [] EmptyString None) as (_ & H & _).
    apply (H (Some "me")); reflexivity.
  - destruct (returned_error_is_rendered (sample_world None)
                message_commands_message_info
                (mkContext (sample_message "pk;message x12") (Some "x12"))
                (mkContext (sample_message "pk;message x12") None)
                [] EmptyString None) as (_ & _ & H).
    apply (H "x"%char "12" "x12" None); reflexivity.
Defined.

(** ** The router *)

Lemma drop_add (n m : nat) (s : string) :
  Py.drop (n + m) s = Py.drop m (Py.drop n s).
Proof.
  revert s. induction n as [|n IH]; intros s; simpl.
  - reflexivity.
  - destruct s as [|c s]; [now destruct m | apply IH].
Qed.

Lemma begins_ci_app (w1 w2 s : string) :
  begins_ci (w1 ++ w2) s
  = begins_ci w1 s && begins_ci w2 (Py.drop (String.length w1) s).
Proof.
  revert s. induction w1 as [|a w1 IH]; intros s; simpl.
  - reflexivity.
  - destruct s as [|b s].
    + destruct (w1 ++ w2); reflexivity.
    + rewrite IH. now rewrite andb_assoc.
Qed.

Lemma begins_ci_self (w more : string) : begins_ci w (w ++ more) = true.
Proof.
  induction w as [|a w IH]; simpl; [reflexivity|].
  unfold Re.chr_eq. now rewrite Ascii.eqb_refl.
Qed.

(** Every match the search reports reads a word of the expression. *)
Lemma run_sound (r : Re.regex) :
  forall pos s p t,
    In (p, t) (Re.run true r pos s) ->
    exists w,
      In w (Re.words r pos)
      /\ begins_ci w s = true
      /\ t = Py.drop (String.length w) s
      /\ p = (pos + String.length w)%nat.
Proof.
  induction r as [| |c|r1 IH1 r2 IH2|r1 IH1 r2 IH2|r1 IH1];
    intros pos s p t H; simpl in H.
  - destruct H as [H|[]]. inversion H; subst.
    exists EmptyString. simpl. repeat split; [now left | lia].
  - revert H. simpl. destruct (Nat.eqb pos 0); intros H; [|contradiction].
    destruct H as [H|[]]. inversion H; subst.
    exists EmptyString. simpl. repeat split; [now left | lia].
  - destruct s as [|x s]; [contradiction|].
    change (In (p, t) (if Re.chr_eq true c x then [(S pos, s)] else [])) in H.
    destruct (Re.chr_eq true c x) eqn:E; [|contradiction].
    destruct H as [H|[]]. inversion H; subst.
    exists (String c EmptyString).
    split; [now left|]. split; [cbn [begins_ci]; now rewrite E|].
    split; [reflexivity | simpl; lia].
  - apply in_flat_map in H. destruct H as [[p1 t1] [H1 H2]]. simpl in H2.
    destruct (IH1 _ _ _ _ H1) as (w1 & Hw1 & Hb1 & -> & ->).
    destruct (IH2 _ _ _ _ H2) as (w2 & Hw2 & Hb2 & -> & ->).
    exists (w1 ++ w2). repeat split.
    + simpl. apply in_flat_map. exists w1. split; [exact Hw1|].
      apply in_map. exact Hw2.
    + now rewrite begins_ci_app, Hb1, Hb2.
    + now rewrite length_app, drop_add.
    + rewrite length_app. lia.
  - apply in_app_or in H. destruct H as [H|H].
    + destruct (IH1 _ _ _ _ H) as (w & Hw & Hb). exists w.
      split; [simpl; apply in_or_app; now left | exact Hb].
    + destruct (IH2 _ _ _ _ H) as (w & Hw & Hb). exists w.
      split; [simpl; apply in_or_app; now right | exact Hb].
  - apply in_app_or in H. destruct H as [H|H].
    + destruct (IH1 _ _ _ _ H) as (w & Hw & Hb). exists w.
      split; [simpl; apply in_or_app; now left | exact Hb].
    + destruct H as [H|[]]. inversion H; subst.
      exists EmptyString. simpl. repeat split.
      * apply in_or_app. right. now left.
      * lia.
Qed.

(** Every word of the expression the subject begins with is found. *)
Lemma run_complete (r : Re.regex) :
  forall pos s w,
    In w (Re.words r pos) ->
    begins_ci w s = true ->
    In ((pos + String.length w)%nat, Py.drop (String.length w) s)
       (Re.run true r pos s).
Proof.
  induction r as [| |c|r1 IH1 r2 IH2|r1 IH1 r2 IH2|r1 IH1];
    intros pos s w Hw Hb; simpl in Hw |- *.
  - destruct Hw as [<-|[]]. simpl. rewrite Nat.add_0_r. now left.
  - destruct (Nat.eqb pos 0); [|contradiction].
    destruct Hw as [<-|[]]. simpl. rewrite Nat.add_0_r. now left.
  - destruct Hw as [<-|[]]. simpl in Hb |- *.
    destruct s as [|x s]; [discriminate|].
    apply andb_true_iff in Hb. destruct Hb as [Hc _]. rewrite Hc.
    replace (pos + 1)%nat with (S pos) by lia. now left.
  - apply in_flat_map in Hw. destruct Hw as [w1 [Hw1 Hw]].
    apply in_map_iff in Hw. destruct Hw as [w2 [<- Hw2]].
    rewrite begins_ci_app in Hb. apply andb_true_iff in Hb.
    destruct Hb as [Hb1 Hb2].
    apply in_flat_map.
    exists ((pos + String.length w1)%nat, Py.drop (String.length w1) s).
    split; [now apply IH1|]. simpl.
    rewrite length_app, drop_add, Nat.add_assoc. now apply IH2.
  - apply in_or_app. apply in_app_or in Hw. destruct Hw as [Hw|Hw].
    + left. now apply IH1.
    + right. now apply IH2.
  - apply in_or_app. apply in_app_or in Hw. destruct Hw as [Hw|Hw].
    + left. now apply IH1.
    + right. destruct Hw as [<-|[]]. simpl. rewrite Nat.add_0_r. now left.
Qed.

Lemma rmatch_none (r : Re.regex) (s : string) :
  (forall w, In w (Re.words r 0) -> begins_ci w s = false) ->
  Re.rmatch true r s = None.
Proof.
  intros H. unfold Re.rmatch.
  destruct (Re.run true r 0 s) as [|[p t] l] eqn:E; [reflexivity|].
  destruct (run_sound r 0 s p t) as (w & Hw & Hb & _).
  - rewrite E. now left.
  - rewrite (H w Hw) in Hb. discriminate.
Qed.

Lemma rmatch_some (r : Re.regex) (s w : string) :
  In w (Re.words r 0) -> begins_ci w s = true ->
  exists span_end, Re.rmatch true r s = Some span_end.
Proof.
  intros Hw Hb. unfold Re.rmatch.
  pose proof (run_complete r 0 s w Hw Hb) as H.
  destruct (Re.run true r 0 s) as [|m l]; [contradiction|].
  now exists (Z.of_nat (fst m)).
Qed.

Lemma commands_compile : forallb entry_compiles commands = true.
Proof. vm_compute. reflexivity. Qed.

Lemma entry_compiles_true (entry : string * Handler) :
  entry_compiles entry = true ->
  exists r,
    Re.compile (prefix ++ fst entry) = Some r
    /\ Re.words r 0 = command_words (fst entry).
Proof.
  unfold entry_compiles.
  generalize (Re.compile (prefix ++ fst entry)). intros [r|] H; [|discriminate].
  exists r. split; [reflexivity|].
  revert H. generalize (command_words (fst entry)). intros l.
  destruct (list_eq_dec string_dec (Re.words r 0) l) as [E|E];
    [intros _; exact E | discriminate].
Qed.

Lemma entry_compiled (pattern : string) (func : Handler) :
  In (pattern, func) commands ->
  exists r,
    Re.compile (prefix ++ pattern) = Some r
    /\ Re.words r 0 = command_words pattern.
Proof.
  intros H.
  exact (entry_compiles_true (pattern, func)
           (proj1 (forallb_forall entry_compiles commands) commands_compile
              (pattern, func) H)).
Qed.

Lemma pattern_match_none (pattern : string) (func : Handler) (cmd : string) :
  In (pattern, func) commands ->
  (forall w, In w (command_words pattern) -> begins_ci w cmd = false) ->
  pattern_match pattern cmd = None.
Proof.
  intros Hin H. destruct (entry_compiled pattern func Hin) as (r & Hr & Hw).
  unfold pattern_match. rewrite Hr. apply rmatch_none. now rewrite Hw.
Qed.

Lemma pattern_match_some (pattern : string) (func : Handler) (cmd w : string) :
  In (pattern, func) commands ->
  In w (command_words pattern) ->
  begins_ci w cmd = true ->
  exists span_end, pattern_match pattern cmd = Some span_end.
Proof.
  intros Hin Hw Hb. destruct (entry_compiled pattern func Hin) as (r & Hr & Hws).
  unfold pattern_match. rewrite Hr. apply (rmatch_some r cmd w); [|exact Hb].
  now rewrite Hws.
Qed.

Lemma dispatch_loop_cons (W : World) (pattern : string) (func : Handler)
  (rest : list (string * Handler)) (msg : Message) :
  dispatch_loop W ((pattern, func) :: rest) msg
  = match Re.compile (prefix ++ pattern) with
    | None => (Raise (OtherException "re.error"), [])
    | Some regex =>
        match Re.rmatch true regex (msg_content msg) with
        | Some span_end => dispatched (run_command W func (cursor_seed msg span_end))
        | None => dispatch_loop W rest msg
        end
    end.
Proof. reflexivity. Qed.

Lemma dispatch_loop_entry (W : World) (pattern : string) (func : Handler)
  (rest : list (string * Handler)) (msg : Message) :
  compiles (pattern, func) ->
  dispatch_loop W ((pattern, func) :: rest) msg
  = match pattern_match pattern (msg_content msg) with
    | Some span_end => dispatched (run_command W func (cursor_seed msg span_end))
    | None => dispatch_loop W rest msg
    end.
Proof.
  intros [r Hr]. rewrite dispatch_loop_cons. unfold pattern_match.
  simpl fst in Hr. rewrite Hr. reflexivity.
Qed.

Lemma dispatch_loop_first_match (W : World) (msg : Message)
  (pre post : list (string * Handler)) (pattern : string) (func : Handler)
  (span_end : Z) :
  (forall entry, In entry (pre ++ (pattern, func) :: post)%list -> compiles entry) ->
  (forall entry, In entry pre -> pattern_match (fst entry) (msg_content msg) = None) ->
  pattern_match pattern (msg_content msg) = Some span_end ->
  dispatch_loop W (pre ++ (pattern, func) :: post)%list msg
  = dispatched (run_command W func (cursor_seed msg span_end)).
Proof.
  intros Hc Hpre Hm. induction pre as [|[p f] pre IH].
  - simpl app. rewrite dispatch_loop_entry by (apply Hc; now left).
    now rewrite Hm.
  - change (((p, f) :: pre) ++ (pattern, func) :: post)%list
      with ((p, f) :: (pre ++ (pattern, func) :: post))%list.
    rewrite dispatch_loop_entry by (apply Hc; now left).
    pose proof (Hpre (p, f) (or_introl eq_refl)) as Hp. simpl fst in Hp.
    rewrite Hp.
    apply IH.
    + intros entry H. apply Hc. now right.
    + intros entry H. apply Hpre. now right.
Qed.

Lemma dispatch_loop_no_match (W : World) (msg : Message)
  (cmds : list (string * Handler)) :
  (forall entry, In entry cmds -> compiles entry) ->
  (forall entry, In entry cmds -> pattern_match (fst entry) (msg_content msg) = None) ->
  dispatch_loop W cmds msg = (Return false, []).
Proof.
  intros Hc Hn. induction cmds as [|[p f] cmds IH]; [reflexivity|].
  rewrite dispatch_loop_entry by (apply Hc; now left).
  pose proof (Hn (p, f) (or_introl eq_refl)) as Hp. simpl fst in Hp.
  rewrite Hp.
  apply IH.
  - intros entry H. apply Hc. now right.
  - intros entry H. apply Hn. now right.
Qed.

Lemma commands_all_compile (entry : string * Handler) :
  In entry commands -> compiles entry.
Proof.
  destruct entry as [p f]. intros H.
  destruct (entry_compiled p f H) as (r & Hr & _). now exists r.
Qed.

Lemma run_command_calls (W : World) (func : Handler) (ctx : CommandContext) :
  exists evs, events_of (run_command W func) ctx = EvCall func (args ctx) :: evs.
Proof.
  unfold events_of, run_command, try_except, call, bind, get_ctx, emit.
  destruct (handler_body W func ctx) as [[[v|e] c1] ev1].
  - destruct (is_CommandResponse v).
    + unfold reply, bind, get_ctx, emit, ret. eexists. reflexivity.
    + unfold ret. eexists. reflexivity.
  - destruct e as [t h|k|d|b].
    + unfold reply, bind, get_ctx, emit, ret. eexists. reflexivity.
    + destruct (log_error_in_channel W (KeyError k) c1) as [[o c2] ev2].
      eexists. reflexivity.
    + destruct (log_error_in_channel W (OtherException d) c1) as [[o c2] ev2].
      eexists. reflexivity.
    + unfold raise. eexists. reflexivity.
Qed.

Lemma dispatched_events (r : Outcome unit * CommandContext * list Event) :
  snd (dispatched r) = snd r.
Proof. now destruct r as [[[u|e] c] evs]. Qed.

(** C1: the table is scanned in its listed order and the first entry whose
    expression matches at the start of the content wins: when no entry
    before it matches, the dispatch is the run of that entry's handler on a
    cursor seeded with the trimmed text after the match, and its first
    event is the call of that handler.  In particular
    [pk;system set foo] goes to the [system set] handler with seed [foo]
    although the bare [system] expression matches it too. *)
Theorem command_dispatch_first_match (W : World) (msg : Message)
  (pre post : list (string * Handler)) (pattern : string) (func : Handler)
  (span_end : Z) :
  commands = (pre ++ (pattern, func) :: post)%list ->
  (forall entry, In entry pre ->
     pattern_match (fst entry) (msg_content msg) = None) ->
  pattern_match pattern (msg_content msg) = Some span_end ->
  command_dispatch W msg
  = dispatched (run_command W func (cursor_seed msg span_end))
  /\ (exists evs,
        snd (command_dispatch W msg)
        = EvCall func
            (Some (Py.strip (Py.slice_from span_end (msg_content msg)))) :: evs)
  /\ (forall author server channel,
        command_dispatch W (mkMessage "pk;system set foo" author server channel)
        = dispatched
            (run_command W system_commands_system_set
               (mkContext (mkMessage "pk;system set foo" author server channel)
                          (Some "foo")))
        /\ pattern_match "system" "pk;system set foo" = Some 9).
Proof.
  intros Ht Hpre Hm.
  assert (Hd : command_dispatch W msg
               = dispatched (run_command W func (cursor_seed msg span_end))).
  { unfold command_dispatch. rewrite Ht.
    apply dispatch_loop_first_match; try assumption.
    intros entry H. apply commands_all_compile. now rewrite Ht. }
  split; [exact Hd|]. split.
  - rewrite Hd, dispatched_events.
    apply (run_command_calls W func (cursor_seed msg span_end)).
  - intros author server channel. split; [|vm_compute; reflexivity].
    unfold command_dispatch.
    apply (dispatch_loop_first_match W
             (mkMessage "pk;system set foo" author server channel)
             [("system (new|register|create|init)", system_commands_new_system)]
             (tl (tl commands)) "system set" system_commands_system_set 13).
    + intros entry H. apply commands_all_compile. exact H.
    + intros entry [<-|[]]. vm_compute. reflexivity.
    + vm_compute. reflexivity.
Qed.

Lemma command_dispatch_first_match_witness :
  command_dispatch (sample_world None) (sample_message "PK!Switch Out now")
  = dispatched
      (run_command (sample_world None) switch_commands_switch_out
         (cursor_seed (sample_message "PK!Switch Out now") 13)).
Proof.
  assert (H1 : commands
               = (firstn 21 commands
                  ++ ("switch out", switch_commands_switch_out)
                     :: skipn 22 commands)%list) by reflexivity.
  assert (Hb : forallb
                 (fun e => match pattern_match (fst e) "PK!Switch Out now" with
                           | None => true
                           | Some _ => false
                           end)
                 (firstn 21 commands) = true) by (vm_compute; reflexivity).
  assert (H2 : forall entry, In entry (firstn 21 commands) ->
               pattern_match (fst entry)
                 (msg_content (sample_message "PK!Switch Out now")) = None).
  { intros entry H.
    pose proof (proj1 (forallb_forall _ _) Hb entry H) as He.
    cbv beta in He.
    change (msg_content (sample_message "PK!Switch Out now"))
      with "PK!Switch Out now".
    revert He.
    generalize (pattern_match (fst entry) "PK!Switch Out now").
    intros [z|]; [discriminate | reflexivity]. }
  assert (H3 : pattern_match "switch out"
                 (msg_content (sample_message "PK!Switch Out now")) = Some 13)
    by (vm_compute; reflexivity).
  exact (proj1 (command_dispatch_first_match (sample_world None)
                  (sample_message "PK!Switch Out now")
                  (firstn 21 commands) (skipn 22 commands)
                  "switch out" switch_commands_switch_out 13 H1 H2 H3)).
Defined.

Lemma none_match_In (cmd : string) (entries : list (string * Handler)) :
  none_match cmd entries = true ->
  forall entry, In entry entries -> pattern_match (fst entry) cmd = None.
Proof.
  intros Hb entry H.
  pose proof (proj1 (forallb_forall _ _) Hb entry H) as He. cbv beta in He.
  revert He. generalize (pattern_match (fst entry) cmd).
  intros [z|]; [discriminate | reflexivity].
Qed.

Lemma no_command_begins_In (cmd : string) :
  no_command_begins cmd = true ->
  forall pattern func w,
    In (pattern, func) commands ->
    In w (command_words pattern) ->
    begins_ci w cmd = false.
Proof.
  intros Hb pattern func w Hin Hw.
  pose proof (proj1 (forallb_forall _ _) Hb (pattern, func) Hin) as He.
  cbv beta in He. simpl fst in He.
  pose proof (proj1 (forallb_forall _ _) He w Hw) as Hn. cbv beta in Hn.
  now apply negb_true_iff in Hn.
Qed.

(** C8: a message whose content does not begin, letter case aside, with
    [pk], then [;] or [!], then a word of some table entry, makes
    [command_dispatch] return [False] with no event at all: no handler
    call, no message sent, nothing logged. *)
Theorem command_dispatch_no_match (W : World) (msg : Message) :
  (forall pattern func w,
     In (pattern, func) commands ->
     In w (command_words pattern) ->
     begins_ci w (msg_content msg) = false) ->
  command_dispatch W msg = (Return false, []).
Proof.
  intros H. unfold command_dispatch. apply dispatch_loop_no_match.
  - apply commands_all_compile.
  - intros [p f] Hin. simpl fst.
    apply (pattern_match_none p f _ Hin). intros w Hw. now apply (H p f).
Qed.

Lemma command_dispatch_no_match_witness :
  command_dispatch (sample_world None) (sample_message "hello, pk;system")
  = (Return false, []).
Proof.
  apply (command_dispatch_no_match (sample_world None)
           (sample_message "hello, pk;system")).
  apply no_command_begins_In. vm_compute. reflexivity.
Defined.

(** C10: a table expression asks for no delimiter after its text.  A
    content that begins, letter case aside, with [pk], [;] or [!] and a
    word of an entry is matched by that entry's expression whatever
    follows, letters included; and [pk;systemfoo] is dispatched to the bare
    [system] handler with cursor seed [foo]. *)
Theorem pattern_needs_no_delimiter (W : World) (pattern : string)
  (func : Handler) (w : string) :
  In (pattern, func) commands ->
  In w (command_words pattern) ->
  (forall more, exists span_end, pattern_match pattern (w ++ more) = Some span_end)
  /\ (forall cmd,
        begins_ci w cmd = true ->
        exists span_end, pattern_match pattern cmd = Some span_end)
  /\ (forall author server channel,
        command_dispatch W (mkMessage "pk;systemfoo" author server channel)
        = dispatched
            (run_command W system_commands_system_info
               (mkContext (mkMessage "pk;systemfoo" author server channel)
                          (Some "foo")))).
Proof.
  intros Hin Hw. split; [|split].
  - intros more. apply (pattern_match_some pattern func _ w Hin Hw).
    apply begins_ci_self.
  - intros cmd Hb. now apply (pattern_match_some pattern func cmd w).
  - intros author server channel. unfold command_dispatch.
    apply (dispatch_loop_first_match W
             (mkMessage "pk;systemfoo" author server channel)
             (firstn 8 commands) (skipn 9 commands)
             "system" system_commands_system_info 9).
    + intros entry H. apply commands_all_compile. exact H.
    + apply none_match_In. vm_compute. reflexivity.
    + vm_compute. reflexivity.
Qed.

Lemma pattern_needs_no_delimiter_witness :
  exists span_end, pattern_match "member" "pk!memberships" = Some span_end.
Proof.
  destruct (pattern_needs_no_delimiter (sample_world None) "member"
              member_commands_member_info "pk!member") as (H & _).
  - vm_compute. tauto.
  - vm_compute. tauto.
  - exact (H "ships").
Defined.

(** * Further properties *)

(** ** Trimming *)

Lemma length_lstrip (s : string) :
  (String.length (Py.lstrip s) <= String.length s)%nat.
Proof.
  induction s as [|c s IH]; simpl; [lia|].
  destruct (Py.isspace c); simpl; lia.
Qed.

Lemma length_rstrip (s : string) :
  (String.length (Py.rstrip s) <= String.length s)%nat.
Proof.
  induction s as [|c s IH]; simpl; [lia|].
  destruct (Py.rstrip s) as [|d r]; [destruct (Py.isspace c)|]; simpl in *; lia.
Qed.

Lemma length_strip (s : string) :
  (String.length (Py.strip s) <= String.length s)%nat.
Proof.
  unfold Py.strip. pose proof (length_rstrip (Py.lstrip s)).
  pose proof (length_lstrip s). lia.
Qed.

Lemma lstrip_fixed (s : string) :
  no_leading_space s = true -> Py.lstrip s = s.
Proof.
  destruct s as [|c s]; simpl; [reflexivity|].
  intros H. apply negb_true_iff in H. now rewrite H.
Qed.

Lemma rstrip_idempotent (s : string) : Py.rstrip (Py.rstrip s) = Py.rstrip s.
Proof.
  induction s as [|c s IH]; simpl; [reflexivity|].
  destruct (Py.rstrip s) as [|d r] eqn:E.
  - destruct (Py.isspace c) eqn:Hc; simpl; [reflexivity|]. now rewrite Hc.
  - change (Py.rstrip (String c (String d r))) with
      (match Py.rstrip (String d r) with
       | EmptyString => if Py.isspace c then EmptyString else String c EmptyString
       | r' => String c r'
       end).
    now rewrite IH.
Qed.

Lemma strip_trimmed (s : string) : trimmed (Py.strip s).
Proof.
  unfold trimmed, Py.strip.
  rewrite (lstrip_fixed (Py.rstrip (Py.lstrip s))).
  - apply rstrip_idempotent.
  - apply rstrip_no_leading_space, lstrip_no_leading_space.
Qed.

Lemma strip_space_shorter (c : ascii) (s : string) :
  Py.isspace c = true ->
  (String.length (Py.strip (String c s)) <= String.length s)%nat.
Proof.
  intros H. unfold Py.strip. simpl Py.lstrip. rewrite H.
  apply (length_strip s).
Qed.

(** ** The tokenizer and the cursor, further *)

Lemma next_arg_remainder_shorter (c : ascii) (s tok r : string) :
  next_arg (String c s) = (tok, Some r) ->
  (String.length r < String.length (String c s))%nat.
Proof.
  rewrite next_arg_contract_eq. unfold next_arg_contract.
  destruct (Ascii.eqb c Py.dquote).
  - destruct (cut Py.dquote s) as [[inside [|d after]]|] eqn:E;
      intros H; inversion H; subst.
    destruct (cut_some _ _ _ _ E) as [-> _].
    pose proof (length_strip after). simpl. rewrite length_app. simpl. lia.
  - destruct (cut " "%char (String c s)) as [[before rest]|] eqn:E;
      intros H; inversion H; subst.
    destruct (cut_some _ _ _ _ E) as [Hs [rest' ->]]. rewrite Hs.
    pose proof (strip_space_shorter " "%char rest' eq_refl).
    rewrite length_app. simpl String.length. lia.
Qed.

Lemma pop_str_cursor_shorter (error : option Exn) (ctx : CommandContext)
  (c : ascii) (s : string) :
  args ctx = Some (String c s) ->
  (String.length (cursor_text (cursor_after (pop_str error) ctx))
   < String.length (String c s))%nat.
Proof.
  intros Ha. unfold cursor_after.
  destruct (next_arg (String c s)) as [tok rem] eqn:Hn.
  rewrite (pop_str_nonempty error ctx c s tok rem Ha Hn). simpl snd. simpl args.
  destruct rem as [r|]; [|simpl; lia].
  apply (next_arg_remainder_shorter c s tok r Hn).
Qed.

Lemma pop_str_progress (error : option Exn) (ctx : CommandContext) :
  Py.truthy (args ctx) = true ->
  (exists tok, outcome_of (pop_str error) ctx = Return (Some tok))
  /\ (String.length (cursor_text (cursor_after (pop_str error) ctx))
      < String.length (cursor_text (args ctx)))%nat.
Proof.
  intros H. destruct (args ctx) as [[|c s]|] eqn:Ha; try discriminate.
  split.
  - destruct (next_arg (String c s)) as [tok rem] eqn:Hn. exists tok.
    unfold outcome_of. now rewrite (pop_str_nonempty error ctx c s tok rem Ha Hn).
  - simpl cursor_text. now apply pop_str_cursor_shorter.
Qed.

(** X1: a pop from a cursor that has text left always makes progress: it
    returns a token and leaves strictly less text than there was. *)
Theorem pop_str_makes_progress (error : option Exn) (ctx : CommandContext) :
  Py.truthy (args ctx) = true ->
  (exists tok, outcome_of (pop_str error) ctx = Return (Some tok))
  /\ (String.length (cursor_text (cursor_after (pop_str error) ctx))
      < String.length (cursor_text (args ctx)))%nat.
Proof. apply pop_str_progress. Qed.

Lemma pop_str_makes_progress_witness :
  (String.length
     (cursor_text (cursor_after (pop_str None)
                     (mkContext (sample_message "pk;member a b") (Some "a b"))))
   < String.length "a b")%nat.
Proof.
  apply (pop_str_makes_progress None
           (mkContext (sample_message "pk;member a b") (Some "a b"))).
  reflexivity.
Defined.

Lemma pop_n_step (n : nat) (ctx : CommandContext) :
  cursor_after (pop_n (S n)) ctx
  = cursor_after (pop_n n) (context_after (pop_str None) ctx).
Proof.
  unfold cursor_after, context_after. simpl pop_n. unfold bind at 1.
  destruct (pop_str None ctx) as [[[t|e] c1] ev1] eqn:E.
  - simpl. unfold bind, ret.
    destruct (pop_n n c1) as [[[ts|e] c2] ev2]; reflexivity.
  - exfalso. pose proof (f_equal (fun r => fst (fst r)) E) as Ho. simpl in Ho.
    destruct (Py.truthy (args ctx)) eqn:Ht.
    + destruct (pop_str_progress None ctx Ht) as [[tok Hk] _].
      unfold outcome_of in Hk. rewrite Ho in Hk. discriminate.
    + rewrite (pop_str_empty None ctx Ht) in Ho. discriminate.
Qed.

Lemma pop_n_exhausts (n : nat) :
  forall ctx,
    (String.length (cursor_text (args ctx)) <= n)%nat ->
    Py.truthy (cursor_after (pop_n n) ctx) = false.
Proof.
  induction n as [|n IH]; intros ctx Hl.
  - unfold cursor_after. simpl.
    destruct (args ctx) as [[|c s]|]; try reflexivity. simpl in Hl. lia.
  - rewrite pop_n_step. apply IH. unfold context_after.
    destruct (Py.truthy (args ctx)) eqn:Ht.
    + destruct (pop_str_progress None ctx Ht) as [_ Hlt].
      unfold cursor_after in Hlt. lia.
    + rewrite (pop_str_empty None ctx Ht). simpl snd. simpl fst.
      destruct (args ctx) as [[|c s]|]; simpl in *; try discriminate; lia.
Qed.

(** X2: popping until [has_next] is false stops: after as many pops as the
    cursor has characters, [has_next] answers false, and none of these pops
    raises. *)
Theorem popping_exhausts_cursor (n : nat) (ctx : CommandContext) :
  (String.length (cursor_text (args ctx)) <= n)%nat ->
  outcome_of (pop_n n ;; has_next) ctx = Return false
  /\ events_of (pop_n n ;; has_next) ctx = [].
Proof.
  intros Hl. pose proof (pop_n_exhausts n ctx Hl) as Hx.
  unfold cursor_after in Hx. unfold outcome_of, events_of, bind, has_next, get_ctx, ret.
  assert (Hr : forall m c, exists ts c', pop_n m c = (Return ts, c', [])).
  { clear. induction m as [|m IH]; intros c.
    - now exists [], c.
    - simpl. unfold bind at 1.
      destruct (Py.truthy (args c)) eqn:Ht.
      + destruct (args c) as [[|x s]|] eqn:Ha; try discriminate.
        destruct (next_arg (String x s)) as [tok rem] eqn:Hn.
        rewrite (pop_str_nonempty None c x s tok rem Ha Hn).
        cbv beta iota. unfold bind at 1.
        destruct (IH (mkContext (message c) rem)) as (ts & c' & ->).
        unfold ret. simpl. now exists (Some tok :: ts), c'.
      + rewrite (pop_str_empty None c Ht).
        cbv beta iota. unfold bind at 1.
        destruct (IH c) as (ts & c' & ->).
        unfold ret. simpl. now exists (None :: ts), c'. }
  destruct (Hr n ctx) as (ts & c' & E). rewrite E in Hx |- *. simpl in Hx |- *.
  now rewrite Hx.
Qed.

Lemma popping_exhausts_cursor_witness :
  outcome_of (pop_n 7 ;; has_next)
    (mkContext (sample_message "pk;member a b c d") (Some "a b c d"))
  = Return false.
Proof.
  apply (popping_exhausts_cursor 7
           (mkContext (sample_message "pk;member a b c d") (Some "a b c d"))).
  simpl. lia.
Defined.

Lemma find_none_cut (c : ascii) (s : string) :
  Py.find c s = -1 <-> cut c s = None.
Proof.
  unfold Py.find. rewrite find_from_cut.
  destruct (cut c s) as [[b r]|]; split; intros H; try reflexivity; try discriminate.
  unfold Py.len in H. lia.
Qed.

Lemma cut_app (c : ascii) (t rest : string) :
  cut c t = None -> cut c (t ++ String c rest) = Some (t, String c rest).
Proof.
  induction t as [|x t IH]; simpl; intros H.
  - now rewrite Ascii.eqb_refl.
  - destruct (Ascii.eqb x c); [discriminate|].
    destruct (cut c t) as [[b r]|]; [discriminate|]. now rewrite IH.
Qed.

Lemma app_String_assoc (a : string) (c : ascii) (b : string) :
  (a ++ String c EmptyString) ++ b = a ++ String c b.
Proof. induction a as [|x a IH]; simpl; [reflexivity | now rewrite IH]. Qed.

(** X3: quoting carries a token through the tokenizer unchanged.  For a
    text without a double quote, the quoted text followed by anything is
    tokenized to exactly that text, inner and outer spaces included, and
    the trimmed rest; with the closing quote missing the text is still the
    token and no remainder is left. *)
Theorem quoting_protects_token (t rest : string) :
  Py.find Py.dquote t = -1 ->
  next_arg (String Py.dquote (t ++ String Py.dquote rest))
  = (t, Some (Py.strip rest))
  /\ next_arg (String Py.dquote t) = (t, None).
Proof.
  intros H. apply find_none_cut in H.
  rewrite !next_arg_contract_eq. unfold next_arg_contract.
  change (Ascii.eqb Py.dquote Py.dquote) with true. cbv iota.
  rewrite (cut_app Py.dquote t rest H), H. split; reflexivity.
Qed.

Lemma quoting_protects_token_witness :
  next_arg (String Py.dquote (" Alice  B " ++ String Py.dquote "  rest "))
  = (" Alice  B ", Some (Py.strip "  rest ")).
Proof.
  apply (quoting_protects_token " Alice  B " "  rest "). reflexivity.
Defined.

Lemma cut_none_lstrip (c : ascii) (s : string) :
  cut c s = None -> cut c (Py.lstrip s) = None.
Proof.
  induction s as [|x s IH]; simpl; [reflexivity|]. intros H.
  destruct (Ascii.eqb x c) eqn:Hx; [discriminate|].
  destruct (cut c s) as [[b r]|] eqn:E; [discriminate|].
  destruct (Py.isspace x); [now apply IH|]. simpl. now rewrite Hx, E.
Qed.

Lemma cut_none_rstrip (c : ascii) (s : string) :
  cut c s = None -> cut c (Py.rstrip s) = None.
Proof.
  induction s as [|x s IH]; simpl; [reflexivity|]. intros H.
  destruct (Ascii.eqb x c) eqn:Hx; [discriminate|].
  destruct (cut c s) as [[b r]|] eqn:E; [discriminate|].
  specialize (IH eq_refl).
  destruct (Py.rstrip s) as [|d r] eqn:Er.
  - destruct (Py.isspace x); simpl; [reflexivity | now rewrite Hx].
  - change (cut c (String x (String d r)))
      with (if Ascii.eqb x c then Some (EmptyString, String x (String d r))
            else match cut c (String d r) with
                 | Some (before, rest) => Some (String x before, rest)
                 | None => None
                 end).
    now rewrite Hx, IH.
Qed.

Lemma cut_none_strip (c : ascii) (s : string) :
  cut c s = None -> cut c (Py.strip s) = None.
Proof. intros H. now apply cut_none_rstrip, cut_none_lstrip. Qed.

(** X4: what the tokenizer hands out is trimmed.  A remainder, when there
    is one, has no whitespace at either end; and the token of an input that
    does not open with a double quote has no whitespace at either end and
    no space inside. *)
Theorem next_arg_outputs_trimmed (s tok : string) (rem : option string) :
  next_arg s = (tok, rem) ->
  (forall r, rem = Some r -> trimmed r)
  /\ (Py.startswith s (String Py.dquote EmptyString) = false ->
      trimmed tok /\ Py.find " "%char tok = -1).
Proof.
  rewrite next_arg_contract_eq. unfold next_arg_contract.
  destruct s as [|q body].
  - intros H; inversion H; subst. split; [discriminate|].
    intros _. split; reflexivity.
  - change (Py.startswith (String q body) (String Py.dquote EmptyString))
      with (Ascii.eqb Py.dquote q && true).
    rewrite andb_true_r, (Ascii.eqb_sym Py.dquote q).
    destruct (Ascii.eqb q Py.dquote).
    + destruct (cut Py.dquote body) as [[inside [|d after]]|];
        intros H; inversion H; subst; (split; [|discriminate]);
        intros r Hr; inversion Hr; subst. apply strip_trimmed.
    + destruct (cut " "%char (String q body)) as [[before rest]|] eqn:E;
        intros H; inversion H; subst; split.
      * intros r Hr; inversion Hr; subst. apply strip_trimmed.
      * intros _. split; [apply strip_trimmed|].
        apply find_none_cut, cut_none_strip. apply (cut_before_free _ _ _ _ E).
      * discriminate.
      * intros _. split; [apply strip_trimmed|].
        now apply find_none_cut, cut_none_strip.
Qed.

Lemma next_arg_outputs_trimmed_witness :
  trimmed "b  c".
Proof.
  destruct (next_arg_outputs_trimmed "a   b  c  " "a" (Some "b  c") eq_refl)
    as [H _].
  apply (H "b  c"). reflexivity.
Defined.

Lemma rstrip_nonspace (s : string) :
  forallb (fun x => negb (Py.isspace x)) (list_ascii_of_string s) = true ->
  Py.rstrip s = s.
Proof.
  induction s as [|c s IH]; simpl; [reflexivity|]. intros H.
  apply andb_true_iff in H. destruct H as [Hc Hs].
  rewrite (IH Hs). apply negb_true_iff in Hc. rewrite Hc. now destruct s.
Qed.

Lemma cut_space_nonspace (s : string) :
  forallb (fun x => negb (Py.isspace x)) (list_ascii_of_string s) = true ->
  cut " "%char s = None.
Proof.
  induction s as [|c s IH]; simpl; [reflexivity|]. intros H.
  apply andb_true_iff in H. destruct H as [Hc Hs]. rewrite (IH Hs).
  destruct (Ascii.eqb_spec c " "%char) as [->|_]; [discriminate | reflexivity].
Qed.

Lemma plain_word_inv (w : string) :
  plain_word w = true ->
  exists c w',
    w = String c w'
    /\ Ascii.eqb c Py.dquote = false
    /\ forallb (fun x => negb (Py.isspace x)) (list_ascii_of_string w) = true.
Proof.
  destruct w as [|c w']; [discriminate|]. unfold plain_word. intros H.
  apply andb_true_iff in H. destruct H as [Hq Hs].
  exists c, w'. repeat split; [now apply negb_true_iff | exact Hs].
Qed.

Lemma plain_word_solid (w : string) : plain_word w = true -> solid w.
Proof.
  intros H. destruct (plain_word_inv w H) as (c & w' & -> & _ & Hs).
  repeat split.
  - discriminate.
  - simpl in Hs |- *. now apply andb_true_iff in Hs.
  - now apply rstrip_nonspace.
Qed.

Lemma rstrip_app_solid (x j : string) :
  j <> EmptyString -> Py.rstrip j = j -> Py.rstrip (x ++ j) = x ++ j.
Proof.
  intros Hj Hr. induction x as [|c x IH]; simpl; [exact Hr|].
  rewrite IH. destruct (x ++ j) eqn:E; [|reflexivity].
  destruct x; simpl in E; [now contradiction Hj | discriminate].
Qed.

Lemma append_assoc_l (a b c : string) : a ++ b ++ c = (a ++ b) ++ c.
Proof. induction a as [|x a IH]; simpl; [reflexivity | now rewrite IH]. Qed.

Lemma strip_solid (s : string) : solid s -> Py.strip s = s.
Proof.
  intros (_ & Hl & Hr). unfold Py.strip. now rewrite (lstrip_fixed s Hl).
Qed.

Lemma join_words_solid (w : string) (ws : list string) :
  forallb plain_word (w :: ws) = true -> solid (join_words (w :: ws)).
Proof.
  revert w. induction ws as [|w2 ws IH]; intros w H.
  - simpl in H |- *. apply plain_word_solid. now apply andb_true_iff in H.
  - change (join_words (w :: w2 :: ws))
      with (w ++ " " ++ join_words (w2 :: ws)).
    simpl forallb in H. apply andb_true_iff in H. destruct H as [Hw Hrest].
    destruct (IH w2 Hrest) as (Hne & _ & Hr).
    destruct (plain_word_solid w Hw) as (_ & Hlw & _).
    destruct (plain_word_inv w Hw) as (c & w' & -> & _ & _).
    repeat split.
    + discriminate.
    + exact Hlw.
    + rewrite append_assoc_l. apply rstrip_app_solid; assumption.
Qed.

Lemma next_arg_first_word (w j : string) :
  plain_word w = true -> solid j ->
  next_arg (w ++ " " ++ j) = (w, Some j).
Proof.
  intros Hw Hj. destruct (plain_word_inv w Hw) as (c & w' & -> & Hq & Hs).
  rewrite next_arg_contract_eq.
  change (String c w' ++ " " ++ j) with (String c (w' ++ " " ++ j)).
  unfold next_arg_contract. rewrite Hq.
  change (String c (w' ++ " " ++ j)) with (String c w' ++ String " " j).
  rewrite (cut_app " "%char (String c w') j (cut_space_nonspace _ Hs)).
  rewrite (strip_solid (String c w') (plain_word_solid _ Hw)).
  f_equal. f_equal. unfold Py.strip. simpl Py.lstrip.
  change (Py.isspace " ") with true. cbv iota.
  now apply strip_solid.
Qed.

Lemma next_arg_last_word (w : string) :
  plain_word w = true -> next_arg w = (w, None).
Proof.
  intros Hw. destruct (plain_word_inv w Hw) as (c & w' & -> & Hq & Hs).
  rewrite next_arg_contract_eq. unfold next_arg_contract. rewrite Hq.
  rewrite (cut_space_nonspace _ Hs).
  now rewrite (strip_solid (String c w') (plain_word_solid _ Hw)).
Qed.

Lemma pop_n_words (msg : Message) (w : string) (ws : list string) :
  forallb plain_word (w :: ws) = true ->
  pop_n (List.length (w :: ws)) (mkContext msg (Some (join_words (w :: ws))))
  = (Return (map Some (w :: ws)), mkContext msg None, []).
Proof.
  revert w. induction ws as [|w2 ws IH]; intros w H.
  - simpl in H. apply andb_true_iff in H. destruct H as [Hw _].
    destruct (plain_word_inv w Hw) as (c & w' & E & _ & _).
    simpl. unfold bind at 1.
    rewrite (pop_str_nonempty None (mkContext msg (Some w)) c w' w None);
      [reflexivity | now rewrite E | rewrite <- E; now apply next_arg_last_word].
  - simpl forallb in H. apply andb_true_iff in H. destruct H as [Hw Hrest].
    destruct (plain_word_inv w Hw) as (c & w' & E & _ & _).
    change (join_words (w :: w2 :: ws))
      with (w ++ " " ++ join_words (w2 :: ws)).
    change (pop_n (List.length (w :: w2 :: ws)))
      with (t <- pop_str None ;; ts <- pop_n (List.length (w2 :: ws)) ;;
            ret (t :: ts)).
    unfold bind at 1.
    rewrite (pop_str_nonempty None _ c (w' ++ " " ++ join_words (w2 :: ws)) w
               (Some (join_words (w2 :: ws)))).
    + cbv beta iota. unfold bind at 1. simpl message.
      rewrite (IH w2 Hrest). reflexivity.
    + simpl args. now rewrite E.
    + change (String c (w' ++ " " ++ join_words (w2 :: ws)))
        with (String c w' ++ " " ++ join_words (w2 :: ws)).
      rewrite <- E. apply next_arg_first_word; [exact Hw|].
      now apply join_words_solid.
Qed.

(** X5: space-joined plain words come back one per pop.  For words that are
    non-empty, free of whitespace and do not open with a double quote, a
    cursor holding them joined by single spaces yields exactly those words,
    in order, from as many pops, and [has_next] is false afterwards. *)
Theorem pops_return_joined_words (msg : Message) (ws : list string) :
  forallb plain_word ws = true ->
  outcome_of (pop_n (List.length ws)) (mkContext msg (Some (join_words ws)))
  = Return (map Some ws)
  /\ Py.truthy (cursor_after (pop_n (List.length ws))
                  (mkContext msg (Some (join_words ws)))) = false.
Proof.
  intros H. destruct ws as [|w ws]; [split; reflexivity|].
  unfold outcome_of, cursor_after. rewrite (pop_n_words msg w ws H).
  split; reflexivity.
Qed.

Lemma pops_return_joined_words_witness :
  outcome_of (pop_n 3)
    (mkContext (sample_message "pk;member set Alice name") (Some "set Alice name"))
  = Return [Some "set"; Some "Alice"; Some "name"].
Proof.
  apply (pops_return_joined_words (sample_message "pk;member set Alice name")
           ["set"; "Alice"; "name"]).
  reflexivity.
Defined.

(** ** The router and the dispatcher, further *)

Lemma dispatch_loop_route (W : World) (msg : Message)
  (cmds : list (string * Handler)) :
  (forall entry, In entry cmds -> compiles entry) ->
  dispatch_loop W cmds msg
  = match route_in cmds (msg_content msg) with
    | Some (func, span_end) =>
        dispatched (run_command W func (cursor_seed msg span_end))
    | None => (Return false, [])
    end.
Proof.
  intros Hc. induction cmds as [|[p f] cmds IH]; [reflexivity|].
  rewrite dispatch_loop_entry by (apply Hc; now left).
  simpl route_in. destruct (pattern_match p (msg_content msg)); [reflexivity|].
  apply IH. intros entry H. apply Hc. now right.
Qed.

Lemma command_dispatch_route (W : World) (msg : Message) :
  command_dispatch W msg
  = match route (msg_content msg) with
    | Some (func, span_end) =>
        dispatched (run_command W func (cursor_seed msg span_end))
    | None => (Return false, [])
    end.
Proof. apply dispatch_loop_route, commands_all_compile. Qed.

Lemma route_in_some (cmds : list (string * Handler)) (cmd : string)
  (func : Handler) (span_end : Z) :
  route_in cmds cmd = Some (func, span_end) ->
  exists pattern,
    In (pattern, func) cmds /\ pattern_match pattern cmd = Some span_end.
Proof.
  induction cmds as [|[p f] cmds IH]; simpl; [discriminate|].
  destruct (pattern_match p cmd) as [e|] eqn:E.
  - intros H; inversion H; subst. exists p. split; [now left | exact E].
  - intros H. destruct (IH H) as (q & Hin & Hq). exists q. split; [now right | exact Hq].
Qed.

Lemma route_in_none (cmds : list (string * Handler)) (cmd : string) :
  route_in cmds cmd = None ->
  forall pattern func, In (pattern, func) cmds -> pattern_match pattern cmd = None.
Proof.
  induction cmds as [|[p f] cmds IH]; simpl; [contradiction|].
  destruct (pattern_match p cmd) as [e|] eqn:E; [discriminate|].
  intros H pattern func [Hin|Hin].
  - inversion Hin; subst. exact E.
  - now apply (IH H pattern func).
Qed.

Lemma begins_ci_length (w s : string) :
  begins_ci w s = true -> (String.length w <= String.length s)%nat.
Proof.
  revert s. induction w as [|a w IH]; intros s H; simpl; [lia|].
  destruct s as [|b s]; [discriminate|]. simpl in H.
  apply andb_true_iff in H. destruct H as [_ H]. specialize (IH s H). simpl. lia.
Qed.

Lemma slice_from_drop (n : nat) (s : string) :
  (n <= String.length s)%nat -> Py.slice_from (Z.of_nat n) s = Py.drop n s.
Proof.
  intros H. unfold Py.slice_from. rewrite bound_in_range.
  - now rewrite Nat2Z.id.
  - unfold Py.len. lia.
Qed.

(** A match of a table entry ends right after a word of that entry which
    begins the text. *)
Lemma pattern_match_word (pattern : string) (func : Handler) (cmd : string)
  (span_end : Z) :
  In (pattern, func) commands ->
  pattern_match pattern cmd = Some span_end ->
  exists w,
    In w (command_words pattern)
    /\ begins_ci w cmd = true
    /\ span_end = Z.of_nat (String.length w).
Proof.
  intros Hin. destruct (entry_compiled pattern func Hin) as (r & Hr & Hw).
  unfold pattern_match. rewrite Hr. unfold Re.rmatch.
  destruct (Re.run true r 0 cmd) as [|[p t] l] eqn:E; [discriminate|].
  intros H. inversion H; subst.
  destruct (run_sound r 0 cmd p t) as (w & Hw1 & Hb & _ & Hp).
  - rewrite E. now left.
  - exists w. rewrite <- Hw. repeat split; [exact Hw1 | exact Hb |].
    simpl. now rewrite Hp.
Qed.

(** X6: a message that begins, letter case aside, with a command word
    ([pk], [;] or [!], a word of a table entry) is always dispatched: to the
    handler of an entry one of whose words begins the content, on a cursor
    that holds the trimmed text after that word.  Its first event is the
    call of that handler, so the result is never the silent [False]. *)
Theorem command_word_is_dispatched (W : World) (msg : Message) :
  (exists pattern func w,
     In (pattern, func) commands
     /\ In w (command_words pattern)
     /\ begins_ci w (msg_content msg) = true) ->
  exists pattern func w,
    In (pattern, func) commands
    /\ In w (command_words pattern)
    /\ begins_ci w (msg_content msg) = true
    /\ command_dispatch W msg
       = dispatched
           (run_command W func
              (mkContext msg
                 (Some (Py.strip (Py.drop (String.length w) (msg_content msg))))))
    /\ (exists evs,
          snd (command_dispatch W msg)
          = EvCall func
              (Some (Py.strip (Py.drop (String.length w) (msg_content msg))))
            :: evs).
Proof.
  intros (p0 & f0 & w0 & Hin0 & Hw0 & Hb0).
  destruct (pattern_match_some p0 f0 _ w0 Hin0 Hw0 Hb0) as (e0 & He0).
  destruct (route (msg_content msg)) as [[func e]|] eqn:Hr.
  - destruct (route_in_some commands _ func e Hr) as (pattern & Hin & Hm).
    destruct (pattern_match_word pattern func _ e Hin Hm) as (w & Hw & Hb & ->).
    exists pattern, func, w.
    assert (Hd : command_dispatch W msg
                 = dispatched
                     (run_command W func
                        (mkContext msg
                           (Some (Py.strip
                                    (Py.drop (String.length w) (msg_content msg))))))).
    { rewrite command_dispatch_route, Hr. unfold cursor_seed.
      now rewrite (slice_from_drop _ _ (begins_ci_length _ _ Hb)). }
    repeat split; try assumption.
    rewrite Hd, dispatched_events.
    apply (run_command_calls W func
             (mkContext msg
                (Some (Py.strip (Py.drop (String.length w) (msg_content msg)))))).
  - rewrite (route_in_none commands _ Hr p0 f0 Hin0) in He0. discriminate.
Qed.

Lemma command_word_is_dispatched_witness :
  exists pattern func w,
    In (pattern, func) commands
    /\ In w (command_words pattern)
    /\ begins_ci w "PK!Member Proxy Alice [text]" = true
    /\ command_dispatch (sample_world None)
         (sample_message "PK!Member Proxy Alice [text]")
       = dispatched
           (run_command (sample_world None) func
              (mkContext (sample_message "PK!Member Proxy Alice [text]")
                 (Some (Py.strip
                          (Py.drop (String.length w)
                             "PK!Member Proxy Alice [text]")))))
    /\ (exists evs,
          snd (command_dispatch (sample_world None)
                 (sample_message "PK!Member Proxy Alice [text]"))
          = EvCall func
              (Some (Py.strip
                       (Py.drop (String.length w) "PK!Member Proxy Alice [text]")))
            :: evs).
Proof.
  apply (command_word_is_dispatched (sample_world None)
           (sample_message "PK!Member Proxy Alice [text]")).
  exists "member", member_commands_member_info, "pk!member".
  repeat split; vm_compute; tauto.
Defined.

Lemma run_command_returned (W : World) (func : Handler)
  (ctx ctx1 : CommandContext) (evs : list Event) (v : Value) :
  handler_body W func ctx = (Return v, ctx1, evs) ->
  run_command W func ctx
  = (Return tt, ctx1,
     (EvCall func (args ctx) :: evs
      ++ (if is_CommandResponse v
          then [EvSendMessage (ChannelOf (msg_channel (message ctx1))) None
                  (to_embed v)]
          else []))%list).
Proof.
  intros H. unfold run_command, try_except, call, bind, get_ctx, emit.
  rewrite H. destruct v; reflexivity.
Qed.

(** X7: what [run_command] does with a handler that returns.  A
    [CommandSuccess] is rendered to the invoking channel as the success
    embed of its text behind the check mark; for [None] or any value that is
    no [CommandResponse] the dispatcher sends nothing at all.  In each case
    [run_command] returns normally. *)
Theorem run_command_on_return (W : World) (func : Handler)
  (ctx ctx1 : CommandContext) (evs : list Event) (v : Value) :
  handler_body W func ctx = (Return v, ctx1, evs) ->
  (forall text,
     v = VCommandSuccess text ->
     run_command W func ctx
     = (Return tt, ctx1,
        (EvCall func (args ctx) :: evs ++ [success_reply ctx1 text])%list))
  /\ (is_CommandResponse v = false ->
      run_command W func ctx = (Return tt, ctx1, EvCall func (args ctx) :: evs)).
Proof.
  intros H. rewrite (run_command_returned W func ctx ctx1 evs v H). split.
  - intros text ->. reflexivity.
  - intros Hv. rewrite Hv. now rewrite app_nil_r.
Qed.

Lemma run_command_on_return_witness :
  run_command (sample_world None) message_commands_message_info
    (mkContext (sample_message "pk;message 123") (Some "123"))
  = (Return tt, mkContext (sample_message "pk;message 123") None,
     [EvCall message_commands_message_info (Some "123")]).
Proof.
  apply (run_command_on_return (sample_world None) message_commands_message_info
           (mkContext (sample_message "pk;message 123") (Some "123"))
           (mkContext (sample_message "pk;message 123") None) [] VNone).
  - reflexivity.
  - reflexivity.
Defined.

Lemma log_error_in_channel_unset (W : World) (e : Exn) (ctx : CommandContext) :
  environ W "LOG_CHANNEL" = None ->
  log_error_in_channel W e ctx = (Raise (KeyError "LOG_CHANNEL"), ctx, []).
Proof. intros H. unfold log_error_in_channel. rewrite H. reflexivity. Qed.

Lemma log_error_in_channel_set (W : World) (e : Exn) (ctx : CommandContext)
  (id : string) :
  environ W "LOG_CHANNEL" = Some id ->
  fst (fst (log_error_in_channel W e ctx)) = Return tt.
Proof.
  intros H. unfold log_error_in_channel. rewrite H. now destruct id.
Qed.

(** X8: when an exception leaves [run_command].  It does in two cases
    only.  An exception that is no instance of [Exception] raised by the
    handler passes through as it is, with nothing logged or sent.  An
    instance of [Exception] other than [CommandError] raised by the handler
    while [LOG_CHANNEL] is missing from the environment is logged by the
    module logger, and [KeyError('LOG_CHANNEL')] is raised in its place.
    With [LOG_CHANNEL] set and a handler that raises instances of
    [Exception] only, [run_command] returns.  Calls to the chat client are
    taken to return. *)
Theorem run_command_escapes (W : World) (func : Handler)
  (ctx : CommandContext) :
  (forall e,
     outcome_of (run_command W func) ctx = Raise e ->
     (is_Exception e = false
      /\ outcome_of (handler_body W func) ctx = Raise e)
     \/ (e = KeyError "LOG_CHANNEL"
         /\ environ W "LOG_CHANNEL" = None
         /\ exists e', outcome_of (handler_body W func) ctx = Raise e'
                       /\ is_CommandError e' = false
                       /\ is_Exception e' = true))
  /\ (forall e' ctx1 evs,
        handler_body W func ctx = (Raise e', ctx1, evs) ->
        is_Exception e' = false ->
        run_command W func ctx
        = (Raise e', ctx1, EvCall func (args ctx) :: evs))
  /\ (forall e' ctx1 evs,
        handler_body W func ctx = (Raise e', ctx1, evs) ->
        is_CommandError e' = false ->
        is_Exception e' = true ->
        environ W "LOG_CHANNEL" = None ->
        run_command W func ctx
        = (Raise (KeyError "LOG_CHANNEL"), ctx1,
           (EvCall func (args ctx) :: evs
            ++ [EvLoggerException "Exception while dispatching command"])%list))
  /\ (forall id,
        environ W "LOG_CHANNEL" = Some id ->
        (forall e', outcome_of (handler_body W func) ctx = Raise e' ->
                    is_Exception e' = true) ->
        outcome_of (run_command W func) ctx = Return tt).
Proof.
  unfold outcome_of.
  destruct (handler_body W func ctx) as [[[v|e'] ctx1] evs] eqn:Hh.
  - rewrite (run_command_returned W func ctx ctx1 evs v Hh). simpl.
    split; [discriminate|]. split; [discriminate|].
    split; [discriminate | reflexivity].
  - destruct (is_Exception e') eqn:Hx.
    + destruct (is_CommandError e') eqn:He.
      * destruct e' as [t h|k|d|b]; try discriminate.
        rewrite (run_command_raised_error W func ctx ctx1 evs t h Hh). simpl.
        split; [discriminate|]. split; [|split; [|reflexivity]].
        -- intros e2 c2 ev2 H. inversion H; subst. discriminate.
        -- intros e2 c2 ev2 H. inversion H; subst. discriminate.
      * rewrite (run_command_raised_other W func ctx ctx1 evs e' Hh He Hx).
        simpl fst. split; [|split; [|split]].
        -- intros e H. right.
           destruct (environ W "LOG_CHANNEL") as [id|] eqn:Henv.
           ++ rewrite (log_error_in_channel_set W e' ctx1 id Henv) in H.
              discriminate.
           ++ rewrite (log_error_in_channel_unset W e' ctx1 Henv) in H.
              simpl in H. inversion H; subst. repeat split. now exists e'.
        -- intros e2 c2 ev2 H Hx2. inversion H; subst.
           rewrite Hx in Hx2. discriminate.
        -- intros e2 c2 ev2 H _ _ Henv. inversion H; subst.
           now rewrite (log_error_in_channel_unset W e2 c2 Henv).
        -- intros id Henv _. apply (log_error_in_channel_set W e' ctx1 id Henv).
    + rewrite (run_command_raised_base W func ctx ctx1 evs e' Hh Hx). simpl.
      split; [|split; [|split]].
      * intros e H. inversion H; subst. left. split; [exact Hx | reflexivity].
      * intros e2 c2 ev2 H _. now inversion H.
      * intros e2 c2 ev2 H _ Hx2. inversion H; subst.
        rewrite Hx in Hx2. discriminate.
      * intros id _ Hall. specialize (Hall e' eq_refl).
        rewrite Hx in Hall. discriminate.
Qed.

Lemma run_command_escapes_witness :
  run_command (sample_world None) system_commands_system_info
    (mkContext (sample_message "pk;system") (Some EmptyString))
  = (Raise (KeyError "LOG_CHANNEL"),
     mkContext (sample_message "pk;system") (Some EmptyString),
     [EvCall system_commands_system_info (Some EmptyString);
      EvLoggerException "Exception while dispatching command"])
  /\ run_command (interrupted_world (Some "777")) system_commands_system_info
       (mkContext (sample_message "pk;system") (Some EmptyString))
     = (Raise (BaseExceptionOnly "KeyboardInterrupt"),
        mkContext (sample_message "pk;system") (Some EmptyString),
        [EvCall system_commands_system_info (Some EmptyString)]).
Proof.
  split.
  - destruct (run_command_escapes (sample_world None)
                system_commands_system_info
                (mkContext (sample_message "pk;system") (Some EmptyString)))
      as (_ & _ & H & _).
    apply (H (OtherException "RuntimeError")
             (mkContext (sample_message "pk;system") (Some EmptyString)) []);
      reflexivity.
  - destruct (run_command_escapes (interrupted_world (Some "777"))
                system_commands_system_info
                (mkContext (sample_message "pk;system") (Some EmptyString)))
      as (_ & H & _).
    apply (H (BaseExceptionOnly "KeyboardInterrupt")
             (mkContext (sample_message "pk;system") (Some EmptyString)) []);
      reflexivity.
Defined.

Lemma Forall2_flat_map {A B : Type} (R : A -> A -> Prop) (Q : B -> B -> Prop)
  (f g : A -> list B) (l l' : list A) :
  Forall2 R l l' ->
  (forall x y, R x y -> Forall2 Q (f x) (g y)) ->
  Forall2 Q (flat_map f l) (flat_map g l').
Proof.
  intros H Hf. induction H as [|x y l l' Hxy Hl IH]; simpl.
  - constructor.
  - apply Forall2_app; [now apply Hf | exact IH].
Qed.

Lemma run_same_ci (r : Re.regex) :
  forall pos s s',
    same_ci s s' = true ->
    Forall2 match_same_ci (Re.run true r pos s) (Re.run true r pos s').
Proof.
  induction r as [| |c|r1 IH1 r2 IH2|r1 IH1 r2 IH2|r1 IH1];
    intros pos s s' H; simpl.
  - repeat constructor. exact H.
  - destruct (Nat.eqb pos 0); repeat constructor. exact H.
  - destruct s as [|x s], s' as [|y s']; try discriminate; [constructor|].
    simpl in H. apply andb_true_iff in H. destruct H as [Hxy Hs].
    apply Ascii.eqb_eq in Hxy. unfold Re.chr_eq. rewrite Hxy.
    destruct (Ascii.eqb (Py.tolower y) (Py.tolower c)); repeat constructor.
    exact Hs.
  - apply (Forall2_flat_map match_same_ci match_same_ci).
    + now apply IH1.
    + intros [p t] [p' t'] [Hp Ht]. simpl in Hp, Ht |- *. subst p'.
      now apply IH2.
  - apply Forall2_app; [now apply IH1 | now apply IH2].
  - apply Forall2_app; [now apply IH1|]. repeat constructor. exact H.
Qed.

Lemma rmatch_same_ci (r : Re.regex) (s s' : string) :
  same_ci s s' = true -> Re.rmatch true r s = Re.rmatch true r s'.
Proof.
  intros H. unfold Re.rmatch.
  destruct (run_same_ci r 0 s s' H) as [|m m' l l' [Hm _] _]; [reflexivity|].
  now rewrite Hm.
Qed.

Lemma pattern_match_same_ci (pattern a b : string) :
  same_ci a b = true -> pattern_match pattern a = pattern_match pattern b.
Proof.
  intros H. unfold pattern_match.
  destruct (Re.compile (prefix ++ pattern)); [|reflexivity].
  now apply rmatch_same_ci.
Qed.

Lemma route_in_same_ci (cmds : list (string * Handler)) (a b : string) :
  same_ci a b = true -> route_in cmds a = route_in cmds b.
Proof.
  intros H. induction cmds as [|[p f] cmds IH]; simpl; [reflexivity|].
  rewrite (pattern_match_same_ci p a b H), IH. reflexivity.
Qed.

(** X9: routing does not look at letter case anywhere in the content.  Two
    messages whose contents have the same length and agree letter case
    aside are either both ignored, or both dispatched to the same handler
    with the match ending at the same index. *)
Theorem routing_ignores_case (W : World) (m1 m2 : Message) :
  same_ci (msg_content m1) (msg_content m2) = true ->
  (command_dispatch W m1 = (Return false, [])
   /\ command_dispatch W m2 = (Return false, []))
  \/ (exists func span_end,
        command_dispatch W m1
        = dispatched (run_command W func (cursor_seed m1 span_end))
        /\ command_dispatch W m2
           = dispatched (run_command W func (cursor_seed m2 span_end))).
Proof.
  intros H. rewrite !command_dispatch_route. unfold route.
  rewrite <- (route_in_same_ci commands _ _ H).
  destruct (route_in commands (msg_content m1)) as [[func e]|].
  - right. now exists func, e.
  - left. split; reflexivity.
Qed.

Lemma routing_ignores_case_witness :
  (command_dispatch (sample_world None) (sample_message "pk;system set x")
   = (Return false, [])
   /\ command_dispatch (sample_world None) (sample_message "Pk;SyStEm SeT X")
      = (Return false, []))
  \/ (exists func span_end,
        command_dispatch (sample_world None) (sample_message "pk;system set x")
        = dispatched
            (run_command (sample_world None) func
               (cursor_seed (sample_message "pk;system set x") span_end))
        /\ command_dispatch (sample_world None) (sample_message "Pk;SyStEm SeT X")
           = dispatched
               (run_command (sample_world None) func
                  (cursor_seed (sample_message "Pk;SyStEm SeT X") span_end))).
Proof.
  apply (routing_ignores_case (sample_world None)
           (sample_message "pk;system set x") (sample_message "Pk;SyStEm SeT X")).
  vm_compute. reflexivity.
Defined.

Lemma commands_reachable : forallb entry_reachable commands = true.
Proof. vm_compute. reflexivity. Qed.

Lemma routed_to_true (func : Handler) (w : string) :
  routed_to func w = true -> route w = Some (func, Py.len w).
Proof.
  unfold routed_to. generalize (route w). intros [[f e]|]; [|discriminate].
  intros H. apply andb_true_iff in H. destruct H as [Hf He].
  destruct (Handler_eq_dec f func) as [->|]; [|discriminate].
  apply Z.eqb_eq in He. now rewrite He.
Qed.

Lemma slice_from_len (w : string) : Py.slice_from (Py.len w) w = EmptyString.
Proof.
  pose proof (slice_from_app w EmptyString) as H.
  now rewrite app_empty_r in H.
Qed.

(** X10: no table entry is shadowed by an earlier one.  A message whose
    content is exactly a command word of an entry, in any of its synonyms,
    is dispatched to that entry's handler with an empty cursor. *)
Theorem table_entries_reachable (W : World) (pattern : string)
  (func : Handler) (w : string) (author : User) (server : option string)
  (channel : string) :
  In (pattern, func) commands ->
  In w (command_words pattern) ->
  command_dispatch W (mkMessage w author server channel)
  = dispatched
      (run_command W func
         (mkContext (mkMessage w author server channel) (Some EmptyString))).
Proof.
  intros Hin Hw.
  pose proof (proj1 (forallb_forall _ _) commands_reachable _ Hin) as He.
  unfold entry_reachable in He. simpl fst in He. simpl snd in He.
  pose proof (proj1 (forallb_forall _ _) He w Hw) as Hr.
  apply routed_to_true in Hr.
  rewrite command_dispatch_route. simpl msg_content. rewrite Hr.
  unfold cursor_seed. simpl msg_content. now rewrite slice_from_len.
Qed.

Lemma table_entries_reachable_witness :
  command_dispatch (sample_world None)
    (mkMessage "pk!system frontpercentage" alice None "9009")
  = dispatched
      (run_command (sample_world None) system_commands_system_frontpercent
         (mkContext (mkMessage "pk!system frontpercentage" alice None "9009")
            (Some EmptyString))).
Proof.
  apply (table_entries_reachable (sample_world None)
           "system frontpercent(age)?" system_commands_system_frontpercent).
  - vm_compute. tauto.
  - vm_compute. tauto.
Defined.

(** ** The context operations, further *)

Lemma help_category_pop (ctx : CommandContext) :
  help_category ctx = pop_str None ctx.
Proof.
  unfold help_category, has_next, bind, get_ctx, ret.
  destruct (Py.truthy (args ctx)) eqn:Ht.
  - cbv beta iota. now destruct (pop_str None ctx) as [[o c] evs].
  - now rewrite (pop_str_empty None ctx Ht).
Qed.

(** X11: [has_next] tells exactly whether a pop yields a token, so the
    guard [ctx.pop_str() if ctx.has_next() else None] of [show_help] changes
    nothing: it behaves as [ctx.pop_str()] alone.  A token that is yielded
    may still be the empty string, as for a cursor that opens with two
    double quotes. *)
Theorem has_next_tells_pop (ctx : CommandContext) :
  (outcome_of has_next ctx = Return true
   <-> exists tok, outcome_of (pop_str None) ctx = Return (Some tok))
  /\ (outcome_of has_next ctx = Return false
      <-> outcome_of (pop_str None) ctx = Return None)
  /\ help_category ctx = pop_str None ctx
  /\ (forall rest,
        args ctx = Some (String Py.dquote (String Py.dquote rest)) ->
        outcome_of has_next ctx = Return true
        /\ outcome_of (pop_str None) ctx = Return (Some EmptyString)
        /\ cursor_after (pop_str None) ctx = Some (Py.strip rest)).
Proof.
  split; [|split; [|split]].
  - unfold outcome_of at 1. unfold has_next, bind, get_ctx, ret. simpl.
    destruct (Py.truthy (args ctx)) eqn:Ht; split.
    + intros _. apply (pop_str_progress None ctx Ht).
    + reflexivity.
    + discriminate.
    + intros [tok H]. unfold outcome_of in H.
      rewrite (pop_str_empty None ctx Ht) in H. discriminate.
  - unfold outcome_of at 1. unfold has_next, bind, get_ctx, ret. simpl.
    destruct (Py.truthy (args ctx)) eqn:Ht; split.
    + discriminate.
    + intros H. destruct (pop_str_progress None ctx Ht) as [[tok Hk] _].
      rewrite H in Hk. discriminate.
    + intros _. unfold outcome_of. now rewrite (pop_str_empty None ctx Ht).
    + reflexivity.
  - apply help_category_pop.
  - intros rest Ha. unfold outcome_of, cursor_after, has_next, bind, get_ctx, ret.
    rewrite Ha.
    assert (Hn : next_arg (String Py.dquote (String Py.dquote rest))
                 = (EmptyString, Some (Py.strip rest))).
    { rewrite next_arg_contract_eq. unfold next_arg_contract.
      change (Ascii.eqb Py.dquote Py.dquote) with true. cbv iota.
      simpl cut. change (Ascii.eqb Py.dquote Py.dquote) with true. reflexivity. }
    rewrite (pop_str_nonempty None ctx Py.dquote (String Py.dquote rest)
               EmptyString (Some (Py.strip rest)) Ha Hn).
    repeat split.
Qed.

Lemma has_next_tells_pop_witness :
  outcome_of (pop_str None)
    (mkContext (sample_message "pk;member set")
       (Some (String Py.dquote (String Py.dquote " name"))))
  = Return (Some EmptyString).
Proof.
  destruct (has_next_tells_pop
              (mkContext (sample_message "pk;member set")
                 (Some (String Py.dquote (String Py.dquote " name")))))
    as (_ & _ & _ & H).
  apply (H " name"). reflexivity.
Defined.

Lemma fold_add_page_entry (page : list (option string * string)) :
  forall embed,
    fold_left add_page_entry page embed
    = mkEmbed (embed_base embed) (embed_colour embed) (embed_title embed)
        (page_description page (embed_description embed))
        (embed_footer embed)
        (embed_fields embed ++ page_fields page)%list.
Proof.
  induction page as [|[name text] page IH]; intros embed.
  - simpl. unfold page_fields. simpl. rewrite app_nil_r. now destruct embed.
  - simpl fold_left. rewrite IH. unfold add_page_entry, page_fields. simpl.
    destruct (Py.truthy name); simpl; [|reflexivity].
    now rewrite <- app_assoc.
Qed.

Lemma page_description_named (page : list (option string * string))
  (current : option string) :
  forallb (fun entry => Py.truthy (fst entry)) page = true ->
  page_description page current = current.
Proof.
  revert current. induction page as [|[n t] page IH]; intros current H;
    [reflexivity|].
  simpl in H |- *. apply andb_true_iff in H. destruct H as [Hn H].
  rewrite Hn. now apply IH.
Qed.

Lemma page_description_last (before after : list (option string * string))
  (text : string) (current : option string) :
  forallb (fun entry => Py.truthy (fst entry)) after = true ->
  page_description (before ++ (None, text) :: after)%list current = Some text.
Proof.
  intros Ha. revert current.
  induction before as [|[n t] before IH]; intros current.
  - simpl. now apply page_description_named.
  - simpl. apply IH.
Qed.

Lemma show_help_page (W : World) (ctx ctx1 : CommandContext)
  (category : option string) (page : list (option string * string)) :
  help_category ctx = (Return category, ctx1, []) ->
  help_pages W category = Some page ->
  show_help W ctx
  = (Return VNone, ctx1,
     [EvSendMessage (ChannelOf (msg_channel (message ctx1))) None
        (Some (help_embed page))]).
Proof.
  unfold help_category, show_help, has_next, bind, get_ctx, ret.
  intros H Hp.
  destruct ((if Py.truthy (args ctx) then pop_str None
             else fun c : CommandContext => (Return None, c, [])) ctx)
    as [[o c2] ev2] eqn:E.
  destruct o as [cat|e]; [|discriminate].
  inversion H; subst. rewrite Hp. unfold reply, bind, get_ctx, emit, ret.
  rewrite fold_add_page_entry. reflexivity.
Qed.

(** X12: for a category that is a help page, [show_help] sends one embed
    to the invoking channel and returns [None], so the dispatcher adds
    nothing.  The embed is titled [PluralKit Help]; its fields are the
    page's named entries in page order, and its description is the text of
    the page's last unnamed entry, earlier unnamed entries being
    overwritten. *)
Theorem show_help_renders_page (W : World) (ctx ctx1 : CommandContext)
  (category : option string) (page : list (option string * string)) :
  help_category ctx = (Return category, ctx1, []) ->
  help_pages W category = Some page ->
  run_command W misc_commands_show_help ctx
  = (Return tt, ctx1,
     [EvCall misc_commands_show_help (args ctx);
      EvSendMessage (ChannelOf (msg_channel (message ctx1))) None
        (Some (help_embed page))])
  /\ embed_fields (help_embed page)
     = map (fun entry => (format_arg (fst entry), snd entry))
           (filter (fun entry => Py.truthy (fst entry)) page)
  /\ (forall before text after,
        page = (before ++ (None, text) :: after)%list ->
        forallb (fun entry => Py.truthy (fst entry)) after = true ->
        embed_description (help_embed page) = Some text).
Proof.
  intros Hc Hp. split; [|split].
  - rewrite (run_command_returned W misc_commands_show_help ctx ctx1
               [EvSendMessage (ChannelOf (msg_channel (message ctx1))) None
                  (Some (help_embed page))] VNone).
    + reflexivity.
    + apply (show_help_page W ctx ctx1 category page Hc Hp).
  - reflexivity.
  - intros before text after -> Ha. simpl embed_description.
    now apply page_description_last.
Qed.

Lemma show_help_renders_page_witness :
  run_command (sample_world None) misc_commands_show_help
    (mkContext (sample_message "pk;help") (Some EmptyString))
  = (Return tt, mkContext (sample_message "pk;help") (Some EmptyString),
     [EvCall misc_commands_show_help (Some EmptyString);
      EvSendMessage (ChannelOf "9009") None
        (Some (help_embed [(None, "PluralKit is a bot.")]))]).
Proof.
  apply (show_help_renders_page (sample_world None)
           (mkContext (sample_message "pk;help") (Some EmptyString))
           (mkContext (sample_message "pk;help") (Some EmptyString))
           None [(None, "PluralKit is a bot.")]).
  - reflexivity.
  - reflexivity.
Defined.



(** X14: [pop_system] consumes one token and asks the resolver for it: it
    returns the system found, or raises [CommandError] with the text
    [Unable to find system '<token>'.]; on an exhausted cursor with an
    error supplied it raises that error without asking the resolver. *)
Theorem pop_system_resolves_token (W : World) (error : option Exn)
  (ctx : CommandContext) :
  (forall e,
     Py.truthy (args ctx) = false ->
     error = Some e ->
     pop_system W error ctx = (Raise e, ctx, []))
  /\ (forall c s tok rem,
        args ctx = Some (String c s) ->
        next_arg (String c s) = (tok, rem) ->
        pop_system W error ctx
        = (match get_system_fuzzy W (Some tok) with
           | Some system => Return system
           | None =>
               Raise (CommandError ("Unable to find system '" ++ tok ++ "'.") None)
           end,
           mkContext (message ctx) rem,
           [EvGetSystemFuzzy (Some tok)])).
Proof.
  split.
  - intros e Ht ->. unfold pop_system, bind at 1.
    now rewrite (pop_str_empty (Some e) ctx Ht).
  - intros c s tok rem Ha Hn. unfold pop_system, bind at 1.
    rewrite (pop_str_nonempty error ctx c s tok rem Ha Hn). cbv beta iota.
    unfold bind, emit, raise, ret.
    now destruct (get_system_fuzzy W (Some tok)).
Qed.

Lemma pop_system_resolves_token_witness :
  pop_system (sample_world None) None
    (mkContext (sample_message "pk;system abcde") (Some "abcde"))
  = (Raise (CommandError "Unable to find system 'abcde'." None),
     mkContext (sample_message "pk;system abcde") None,
     [EvGetSystemFuzzy (Some "abcde")]).
Proof.
  destruct (pop_system_resolves_token (sample_world None) None
              (mkContext (sample_message "pk;system abcde") (Some "abcde")))
    as (_ & H).
  apply (H "a"%char "bcde" "abcde" None); reflexivity.
Defined.

Lemma message_info_missing (W : World) (ctx : CommandContext) :
  Py.truthy (args ctx) = false ->
  message_info W ctx
  = (Raise (CommandError "You must pass a message ID."
                         (Some (help_message_lookup W))), ctx, []).
Proof.
  intros Ht. unfold message_info, bind.
  now rewrite (pop_str_empty _ ctx Ht).
Qed.

(** X15: [message_info] on an exhausted cursor never reaches [int] or the
    database: the [CommandError] raised inside [pop_str] travels up to
    [run_command], which answers with the error embed
    [You must pass a message ID.] and its help reference.  So a message
    routed to [message_info] with nothing but whitespace after the command
    gets that reply and [command_dispatch] returns [True]. *)
Theorem message_info_requires_id (W : World) (msg : Message) (span_end : Z) :
  route (msg_content msg) = Some (message_commands_message_info, span_end) ->
  Py.strip (Py.slice_from span_end (msg_content msg)) = EmptyString ->
  command_dispatch W msg
  = (Return true,
     [EvCall message_commands_message_info (Some EmptyString);
      error_reply (mkContext msg (Some EmptyString))
        "You must pass a message ID." (Some (help_message_lookup W))]).
Proof.
  intros Hr Hs. rewrite command_dispatch_route, Hr. unfold cursor_seed.
  rewrite Hs.
  rewrite (run_command_raised_error W message_commands_message_info
             (mkContext msg (Some EmptyString)) (mkContext msg (Some EmptyString))
             [] "You must pass a message ID." (Some (help_message_lookup W))).
  - reflexivity.
  - now apply message_info_missing.
Qed.

Lemma message_info_requires_id_witness :
  command_dispatch (sample_world None) (sample_message "pk;message   ")
  = (Return true,
     [EvCall message_commands_message_info (Some EmptyString);
      error_reply (mkContext (sample_message "pk;message   ") (Some EmptyString))
        "You must pass a message ID."
        (Some ("Looking up a message", "pk;message <id>"))]).
Proof.
  apply (message_info_requires_id (sample_world None)
           (sample_message "pk;message   ") 10).
  - vm_compute. reflexivity.
  - vm_compute. reflexivity.
Defined.

(** X16: only the pop operations move the cursor.  Replying, looking up or
    requiring the invoker's system, asking [has_next] or [remaining], both
    confirmations and the error log leave the context exactly as it was,
    whatever the collaborators answer; and [remaining] returns the cursor
    as it stands. *)
Theorem only_pops_move_cursor (W : World) (ctx : CommandContext)
  (content : option string) (embed : option Embed) (user : User)
  (channel confirm text : string) (e : Exn) :
  context_after (reply content embed) ctx = ctx
  /\ context_after (get_system W) ctx = ctx
  /\ context_after (ensure_system W) ctx = ctx
  /\ context_after has_next ctx = ctx
  /\ context_after remaining ctx = ctx
  /\ context_after (confirm_react W user text) ctx = ctx
  /\ context_after (confirm_text W user channel confirm text) ctx = ctx
  /\ context_after (log_error_in_channel W e) ctx = ctx
  /\ outcome_of remaining ctx = Return (args ctx).
Proof.
  unfold context_after, outcome_of, reply, get_system, ensure_system, has_next,
    remaining, confirm_react, confirm_text, log_error_in_channel, reply,
    bind, emit, raise, ret, get_ctx.
  repeat split.
  - rewrite get_system_run.
    now destruct (get_system_by_account W (invoker ctx)).
  - now destruct (wait_for_reaction W [check_mark; cross_mark] user confirm_timeout).
  - now destruct (wait_for_message W channel user confirm_timeout).
  - now destruct (environ W "LOG_CHANNEL") as [[|c id]|].
Qed.
